(** * The dexdump symbolicator (tools/python/symbolicator/dexdump.py)

    A shallow embedding of [DexdumpSymbolicator]: its compiled patterns, the
    two replacers, the session state and [symbolicate], together with the
    input-kind detector [is_likely_dexdump].

    A Python [str] is modelled as a list of characters whose code points lie
    in 0..255 ([list ascii]); the classes [\d], [\s], [\w] are those of
    Python's [re] on that range.  Calls that could raise in Python ([int],
    [match.group], an attribute of [None]) are modelled with an explicit
    [Raise] outcome. *)

From Stdlib Require Import ZArith Ascii String List Bool Lia DecimalString.
From stdpp Require Import base option gmap strings.
Import ListNotations.

Local Open Scope Z_scope.
Local Open Scope list_scope.

Abbreviation str := (list ascii).

(** A string literal of the source. *)
Definition txt (x : string) : str := list_ascii_of_string x.

(* ------------------------------------------------------------------ *)
(** ** Character classes *)

Module CharClass.

Definition code (c : ascii) : N := N_of_ascii c.

Definition between (lo hi : ascii) (c : ascii) : bool :=
  ((code lo <=? code c) && (code c <=? code hi))%N.

Definition one (x : ascii) (c : ascii) : bool := Ascii.eqb x c.

Definition upper : ascii -> bool := between "A" "Z".
Definition lower : ascii -> bool := between "a" "z".
Definition alpha (c : ascii) : bool := upper c || lower c.

(** [\d] *)
Definition digit : ascii -> bool := between "0" "9".

(** [[0-9a-f]] *)
Definition hexlower (c : ascii) : bool := digit c || between "a" "f" c.

(** [[0-9A-Za-z]] *)
Definition alnum (c : ascii) : bool := digit c || alpha c.

(** [[0-9A-Za-z_$]] *)
Definition ident (c : ascii) : bool := alnum c || one "_" c || one "$" c.

(** [[0-9A-Za-z_$\/]] *)
Definition ident_slash (c : ascii) : bool := ident c || one "/" c.

(** [[<A-Za-z]] *)
Definition method_head (c : ascii) : bool := one "<" c || alpha c.

(** [[>A-Za-z0-9_$]] *)
Definition method_tail (c : ascii) : bool := one ">" c || ident c.

(** [\s]: the white space of Python's [re] below code point 256. *)
Definition space (c : ascii) : bool :=
  ((9 <=? code c) && (code c <=? 13) || (28 <=? code c) && (code c <=? 32)
   || (code c =? 133) || (code c =? 160))%N.

(** [\w] (used by [\b]): alphanumeric or underscore; above 127 the letters
    and numeric signs of Latin-1. *)
Definition word (c : ascii) : bool :=
  (alnum c || one "_" c
   || (code c =? 170) || (code c =? 178) || (code c =? 179) || (code c =? 181)
   || (code c =? 185) || (code c =? 186)
   || (188 <=? code c) && (code c <=? 190)
   || (192 <=? code c) && (code c <=? 214)
   || (216 <=? code c) && (code c <=? 246)
   || (248 <=? code c))%N.

(** [.]: anything but a newline. *)
Definition dot (c : ascii) : bool := negb (one "010" c).

End CharClass.

(* ------------------------------------------------------------------ *)
(** ** A backtracking matcher for the patterns of the module

    The patterns of the source are sequences of literals, character classes,
    greedy repetitions of a character class, [\b], [^] and named groups. *)

Module Re.

Inductive item : Type :=
| Ch (p : ascii -> bool)      (* one character of a class *)
| Star (p : ascii -> bool)    (* p*, greedy *)
| Plus (p : ascii -> bool)    (* p+, greedy *)
| WordB                       (* \b *)
| Bol                         (* ^ *)
| Open (g : string)           (* (?P<g> *)
| Close (g : string).         (* ) *)

Definition regex := list item.

(** A literal: one [Ch] per character. *)
Definition lit (x : string) : regex :=
  map (fun c => Ch (CharClass.one c)) (txt x).

Definition captures := list (string * str).

Fixpoint assoc (g : string) (l : captures) : option str :=
  match l with
  | [] => None
  | (g', v) :: l' => if String.eqb g g' then Some v else assoc g l'
  end.

Definition is_word (o : option ascii) : bool :=
  match o with Some c => CharClass.word c | None => false end.

(** The text between two suffixes of the same string. *)
Definition upto (from to : str) : str :=
  firstn (length from - length to)%nat from.

(** Greedy repetition: the longest run first, then shorter ones. *)
Fixpoint greedy {A} (p : ascii -> bool)
    (k : option ascii -> str -> option A) (prev : option ascii) (s : str)
    : option A :=
  match s with
  | c :: s' =>
      if p c then
        match greedy p k (Some c) s' with
        | Some x => Some x
        | None => k prev s
        end
      else k prev s
  | [] => k prev s
  end.

(** [exec r opens groups prev s]: match [r] at the head of [s], where [prev]
    is the character before [s] in the subject.  Returns the groups and the
    text after the match. *)
Fixpoint exec (r : regex) (opens groups : captures)
    (prev : option ascii) (s : str) {struct r} : option (captures * str) :=
  match r with
  | [] => Some (groups, s)
  | Ch p :: r' =>
      match s with
      | c :: s' => if p c then exec r' opens groups (Some c) s' else None
      | [] => None
      end
  | Star p :: r' => greedy p (exec r' opens groups) prev s
  | Plus p :: r' =>
      match s with
      | c :: s' =>
          if p c then greedy p (exec r' opens groups) (Some c) s' else None
      | [] => None
      end
  | WordB :: r' =>
      if xorb (is_word prev) (is_word (head s))
      then exec r' opens groups prev s else None
  | Bol :: r' =>
      match prev with
      | None => exec r' opens groups prev s
      | Some _ => None
      end
  | Open g :: r' => exec r' ((g, s) :: opens) groups prev s
  | Close g :: r' =>
      match assoc g opens with
      | Some from => exec r' opens ((g, upto from s) :: groups) prev s
      | None => None
      end
  end.

(** A match object: group 0 and the named groups. *)
Record Match : Type := mkMatch { m_text : str; m_groups : captures }.

(** [match.group(name)]; [None] where Python raises [IndexError]. *)
Definition group (g : string) (m : Match) : option str := assoc g (m_groups m).

Definition match_at (r : regex) (prev : option ascii) (s : str)
    : option (Match * str) :=
  match exec r [] [] prev s with
  | Some (gs, rest) => Some (mkMatch (upto s rest) gs, rest)
  | None => None
  end.

(** [pattern.match(s)]: a match at the start of [s]. *)
Definition re_match (r : regex) (s : str) : option Match :=
  option_map fst (match_at r None s).

(** The leftmost match at or after the head of [s]; [before] holds, in
    reverse, the characters already passed. *)
Fixpoint search_from (r : regex) (before : str) (prev : option ascii) (s : str)
    : option (str * Match * str) :=
  match match_at r prev s with
  | Some (m, rest) => Some (rev before, m, rest)
  | None =>
      match s with
      | c :: s' => search_from r (c :: before) (Some c) s'
      | [] => None
      end
  end.

(** [pattern.search(s)]: the text before the match, the match, the text
    after it. *)
Definition re_search (r : regex) (s : str) : option (str * Match * str) :=
  search_from r [] None s.

(** [pattern.sub(repl, s)], scanning [s] once from the left; [skip] counts
    the characters of the current match still to pass.  [repl] returns [None]
    when the replacement function raises, and so does the substitution. *)
Fixpoint sub_from (r : regex) (repl : Match -> option str)
    (prev : option ascii) (skip : nat) (s : str) : option str :=
  match skip with
  | S k =>
      match s with
      | c :: s' => sub_from r repl (Some c) k s'
      | [] => Some []
      end
  | O =>
      match match_at r prev s with
      | Some (m, _) =>
          match repl m with
          | None => None
          | Some out =>
              match s with
              | c :: s' =>
                  match length (m_text m) with
                  | S k => option_map (app out) (sub_from r repl (Some c) k s')
                  | O => option_map (fun t => out ++ c :: t)
                           (sub_from r repl (Some c) O s')
                  end
              | [] => Some out
              end
          end
      | None =>
          match s with
          | c :: s' => option_map (cons c) (sub_from r repl (Some c) O s')
          | [] => Some []
          end
      end
  end.

Definition re_sub (r : regex) (repl : Match -> option str) (s : str)
    : option str :=
  sub_from r repl None O s.

End Re.

Import Re.

(* ------------------------------------------------------------------ *)
(** ** The patterns of [DexdumpSymbolicator] *)

(** r"\bL(?P<class>[A-Za-z][0-9A-Za-z_$]*\/[0-9A-Za-z_$\/]+);" *)
Definition CLASS_REGEX : regex :=
  [WordB] ++ lit "L"
  ++ [Open "class"; Ch CharClass.alpha; Star CharClass.ident]
  ++ lit "/" ++ [Plus CharClass.ident_slash; Close "class"] ++ lit ";".

(** r"(?P<prefix>0x[0-9a-f]+ line=)(?P<lineno>\d+)" *)
Definition LINE_REGEX : regex :=
  [Open "prefix"] ++ lit "0x" ++ [Plus CharClass.hexlower] ++ lit " line="
  ++ [Close "prefix"; Open "lineno"; Plus CharClass.digit; Close "lineno"].

(** r"#\d+\s+:\s+\(in L(?P<class>[A-Za-z][0-9A-Za-z]*\/[0-9A-Za-z_$\/]+);\)" *)
Definition METHOD_CLS_HDR_REGEX : regex :=
  lit "#" ++ [Plus CharClass.digit; Plus CharClass.space] ++ lit ":"
  ++ [Plus CharClass.space] ++ lit "(in L"
  ++ [Open "class"; Ch CharClass.alpha; Star CharClass.alnum]
  ++ lit "/" ++ [Plus CharClass.ident_slash; Close "class"] ++ lit ";)".

(** r"name\s+:\s+\'(?P<method>[<A-Za-z][>A-Za-z0-9_$]*" r")\'" *)
Definition METHOD_REGEX : regex :=
  lit "name" ++ [Plus CharClass.space] ++ lit ":" ++ [Plus CharClass.space]
  ++ lit "'"
  ++ [Open "method"; Ch CharClass.method_head; Star CharClass.method_tail;
      Close "method"]
  ++ lit "'".

(** r"  [A-Z]" *)
Definition CLS_CHUNK_HDR_REGEX : regex := lit "  " ++ [Ch CharClass.upper].

(** r"Class #" *)
Definition CLS_HDR_REGEX : regex := lit "Class #".

(** r"^Processing '.*\.dex'" *)
Definition PROCESSING_REGEX : regex :=
  [Bol] ++ lit "Processing '" ++ [Star CharClass.dot] ++ lit ".dex'".

(** r"Class #\d+" *)
Definition CLASS_NUM_REGEX : regex := lit "Class #" ++ [Plus CharClass.digit].

(* ------------------------------------------------------------------ *)
(** ** Helpers for the string operations of the source *)

(** [s.replace(a, b)] for one-character [a] and [b]. *)
Definition replace (a b : ascii) (s : str) : str :=
  map (fun c => if Ascii.eqb c a then b else c) s.

(** [sep.join(l)] *)
Fixpoint join (sep : str) (l : list str) : str :=
  match l with
  | [] => []
  | [x] => x
  | x :: l' => x ++ sep ++ join sep l'
  end.

Fixpoint starts_with (needle hay : str) : bool :=
  match needle, hay with
  | [], _ => true
  | a :: n', b :: h' => Ascii.eqb a b && starts_with n' h'
  | _ :: _, [] => false
  end.

(** [needle in hay] *)
Fixpoint contains (needle hay : str) : bool :=
  starts_with needle hay
  || match hay with
     | [] => false
     | _ :: h' => contains needle h'
     end.

Fixpoint digits_value (acc : Z) (s : str) : option Z :=
  match s with
  | [] => Some acc
  | c :: s' =>
      if CharClass.digit c
      then digits_value (10 * acc + (Z.of_N (CharClass.code c) - 48)) s'
      else None
  end.

(** The most digits [int] converts: [sys.int_info.default_max_str_digits]
    of CPython. *)
Definition int_max_str_digits : nat := 4300.
Arguments int_max_str_digits : simpl never.

(** [int(s)] on strings of decimal digits; [None] stands for [ValueError],
    raised on the empty string, on a character that is no digit and on more
    than [int_max_str_digits] digits (leading zeros count).  Python accepts
    more (signs, blanks, underscores); the source only converts the text of
    a [\d+] group. *)
Definition int (s : str) : option Z :=
  match s with
  | [] => None
  | _ =>
      if (int_max_str_digits <? length s)%nat then None
      else digits_value 0 s
  end.



(** The string of one line feed, written with backslash n in the source. *)
Definition newline : str := ["010"%char].

(** ["%d" % z] *)
Definition show_int (z : Z) : str :=
  list_ascii_of_string (NilZero.string_of_int (Z.to_int z)).

(* ------------------------------------------------------------------ *)
(** ** The collaborators: symbol tables

    [PositionMap], [DebugLineMap] and [IODIMetadata] are imported by
    symbolicator.py from modules outside this development; they appear here
    through the one operation the symbolicator calls on each. *)

(** A frame of the position map: a file name and a line number, which the
    map (line_unmap.py, outside this development) reads from its binary
    file; ["%d"] formats such a number whole, far below the digit limit of
    integer conversion. *)
Record Position : Type := mkPosition { file : str; line : Z }.

Record PositionMap : Type := { get_stack : Z -> list Position }.

(** [find_line_number(method_id, lineno)], called with the text of the
    [lineno] group; [None] or a line number. *)
Record DebugLineMap : Type := { find_line_number : Z -> str -> option Z }.

Record IODIMetadata : Type := { collision_free : gmap str Z }.

Record SymbolMaps : Type := {
  class_map : gmap str str;
  line_map : PositionMap;
  debug_line_map : option DebugLineMap;
  iodi_metadata : option IODIMetadata
}.

(** What [SymbolMaps.__init__] establishes: it exits when the IODI metadata
    file exists and the debug line map is missing. *)
Definition maps_ok (sm : SymbolMaps) : Prop :=
  iodi_metadata sm <> None -> debug_line_map sm <> None.

(* ------------------------------------------------------------------ *)
(** ** [DexdumpSymbolicator] *)

Record State : Type := mkState {
  reading_methods : bool;
  current_class : option str;
  current_method_id : option Z;
  last_line : option Z
}.

(** [__init__] *)
Definition init : State := mkState false None None None.

Definition reset_state (st : State) : State :=
  mkState (reading_methods st) None None None.

Definition set_current_class (st : State) (c : str) : State :=
  mkState (reading_methods st) (Some c) (current_method_id st) (last_line st).

Definition set_current_method_id (st : State) (i : Z) : State :=
  mkState (reading_methods st) (current_class st) (Some i) (last_line st).

Definition set_last_line (st : State) (l : Z) : State :=
  mkState (reading_methods st) (current_class st) (current_method_id st) (Some l).

Definition set_reading_methods (st : State) (b : bool) : State :=
  mkState b (current_class st) (current_method_id st) (last_line st).

(** The result of a call: an exception, or the returned value ([None] or a
    string). *)
Inductive outcome : Type :=
| Raise
| Return (r : option str).

(** A returned string, or the exception of a substitution. *)
Definition returned (o : option str) : outcome :=
  match o with
  | Some s => Return (Some s)
  | None => Raise
  end.

(** The outcomes up to the first exception, which ends a run. *)
Fixpoint until_raise (os : list outcome) : list outcome :=
  match os with
  | [] => []
  | Raise :: _ => [Raise]
  | o :: os' => o :: until_raise os'
  end.

(** ["%s:%d" % (p.file, p.line)] *)
Definition format_position (p : Position) : str :=
  file p ++ txt ":" ++ show_int (line p).

(** [", ".join(map(..., line_map.get_stack(n)))] *)
Definition positions (sm : SymbolMaps) (n : Z) : str :=
  join (txt ", ") (map format_position (get_stack (line_map sm) n)).

Definition class_replacer (sm : SymbolMaps) (matchobj : Match) : option str :=
  match group "class" matchobj with
  | None => None
  | Some m =>
      let cls := replace "/" "." m in
      match class_map sm !! cls with
      | Some original => Some (txt "L" ++ replace "." "/" original ++ txt ";")
      | None => Some (txt "L" ++ m ++ txt ";")
      end
  end.

Definition line_replacer (sm : SymbolMaps) (matchobj : Match) : option str :=
  match group "lineno" matchobj with
  | None => None
  | Some digits =>
      match int digits with
      | None => None
      | Some lineno =>
          match group "prefix" matchobj with
          | None => None
          | Some prefix => Some (prefix ++ positions sm (lineno - 1))
          end
      end
  end.

(** How the alternate-encoding block of [symbolicate] (lines 66-103, the
    nested [if] on the three patterns) leaves: by a [return], by an
    exception, or by falling through to the section checks with an updated
    state. *)
Inductive flow : Type :=
| Returned (st : State) (r : option str)
| Raised (st : State)
| Fall (st : State).

(** Lines 85-103: the [if match is not None] branch on [LINE_REGEX].
    [if mapped_line:] fails on [None] and on 0. *)
Definition instruction_line (sm : SymbolMaps) (st : State) (method_id : Z)
    (m : Match) : flow :=
  match debug_line_map sm with
  | None => Raised st
  | Some dlm =>
      match group "lineno" m with
      | None => Raised st
      | Some lineno =>
          match find_line_number dlm method_id lineno with
          | None => Fall st
          | Some mapped_line =>
              if mapped_line =? 0 then Fall st
              else if bool_decide (last_line st = Some mapped_line)
              then Returned st None
              else
                let st' := set_last_line st mapped_line in
                match group "prefix" m with
                | None => Raised st'
                | Some prefix =>
                    Returned st'
                      (Some (txt "        " ++ prefix
                             ++ positions sm (mapped_line - 1)
                             ++ newline))
                end
          end
      end
  end.

(** Lines 66-103. *)
Definition iodi_block (sm : SymbolMaps) (iodi : IODIMetadata) (st : State)
    (line : str) : flow :=
  match re_search METHOD_CLS_HDR_REGEX line with
  | Some (_, m, _) =>
      match group "class" m with
      | None => Raised st
      | Some cls => Fall (set_current_class st cls)
      end
  | None =>
      match current_class st with
      | None => Fall st
      | Some cls =>
          match re_search METHOD_REGEX line with
          | Some (_, m, _) =>
              match group "method" m with
              | None => Raised st
              | Some current_method =>
                  let qualified_method :=
                    replace "/" "." cls ++ txt "." ++ current_method in
                  match collision_free iodi !! qualified_method with
                  | Some id => Fall (set_current_method_id st id)
                  | None => Fall st
                  end
              end
          | None =>
              match current_method_id st with
              | None => Fall st
              | Some method_id =>
                  match re_search LINE_REGEX line with
                  | Some (_, m, _) => instruction_line sm st method_id m
                  | None => Fall st
                  end
              end
          end
      end
  end.

(** Lines 105-115: the two section checks that close the
    alternate-encoding block. *)
Definition section_checks (st : State) (line : str) : State :=
  match re_match CLS_CHUNK_HDR_REGEX line with
  | Some _ =>
      let methods :=
        contains (txt "Direct methods") line
        || contains (txt "Virtual methods") line in
      let st' := set_reading_methods st methods in
      if methods then st' else reset_state st'
  | None =>
      match re_match CLS_HDR_REGEX line with
      | Some _ => reset_state (set_reading_methods st false)
      | None => st
      end
  end.

(** Lines 117-119: the two substitutions that end [symbolicate]. *)
Definition rewrite (sm : SymbolMaps) (line : str) : outcome :=
  match re_sub CLASS_REGEX (class_replacer sm) line with
  | None => Raise
  | Some line1 =>
      match re_sub LINE_REGEX (line_replacer sm) line1 with
      | None => Raise
      | Some line2 => Return (Some line2)
      end
  end.

(** [symbolicate(line)]: the new state of the symbolicator and the outcome
    of the call.  (The local [extra] and [p] of the source are never used.) *)
Definition symbolicate (sm : SymbolMaps) (st : State) (line : str)
    : State * outcome :=
  match iodi_metadata sm with
  | Some iodi =>
      match iodi_block sm iodi st line with
      | Returned st' r => (st', Return r)
      | Raised st' => (st', Raise)
      | Fall st' => (section_checks st' line, rewrite sm line)
      end
  | None => (st, rewrite sm line)
  end.

(** [is_likely_dexdump(line)], as a truth value. *)
Definition is_likely_dexdump (line : str) : bool :=
  bool_decide (is_Some (re_match PROCESSING_REGEX line))
  || bool_decide (is_Some (re_search CLASS_NUM_REGEX line)).

(** Feeding lines in order to one symbolicator, as the loop of [main] in
    symbolicator.py does; the outcomes are collected in order and an
    exception ends the loop. *)
Fixpoint run (sm : SymbolMaps) (st : State) (lines : list str)
    : State * list outcome :=
  match lines with
  | [] => (st, [])
  | l :: ls =>
      match symbolicate sm st l with
      | (st1, Raise) => (st1, [Raise])
      | (st1, Return r) =>
          let '(st2, os) := run sm st1 ls in
          (st2, Return r :: os)
      end
  end.

(* ------------------------------------------------------------------ *)
(** ** Derived notions and the tables of the examples *)

(** The character before the position reached after reading [h]. *)
Fixpoint prev_after (prev : option ascii) (h : str) : option ascii :=
  match h with
  | [] => prev
  | c :: h' => prev_after (Some c) h'
  end.

(** A class name as [CLASS_REGEX] accepts it: a letter, identifier
    characters, a slash, and a non-empty tail of identifier characters and
    slashes. *)
Definition class_name (head_tail : ascii -> bool) (cls : str) : Prop :=
  exists c a b,
    cls = c :: a ++ txt "/" ++ b /\ CharClass.alpha c = true /\
    forallb head_tail a = true /\ b <> [] /\
    forallb CharClass.ident_slash b = true.

(** The alternate-encoding block consumes a line when it leaves
    [symbolicate] itself instead of falling through to the substitutions. *)
Definition consumed (sm : SymbolMaps) (st : State) (line : str) : bool :=
  match iodi_metadata sm with
  | None => false
  | Some iodi =>
      match iodi_block sm iodi st line with
      | Fall _ => false
      | _ => true
      end
  end.

(** Tables that map the renamed class [com.Foo] to [a.b.C] and the renamed
    line 4 to [Foo.java:10], without the alternate encoding. *)
Definition foo_maps : SymbolMaps :=
  {| class_map := {[ txt "com.Foo" := txt "a.b.C" ]};
     line_map :=
       {| get_stack := fun n =>
            if n =? 4 then [mkPosition (txt "Foo.java") 10] else [] |};
     debug_line_map := None;
     iodi_metadata := None |}.

(** The states the symbolicator can be in: the initial one and those left by
    a call. *)
Inductive reachable (sm : SymbolMaps) : State -> Prop :=
| reach_init : reachable sm init
| reach_step st line :
    reachable sm st -> reachable sm (fst (symbolicate sm st line)).

(** A line the block treats as an instruction annotation: neither header
    pattern matches and [LINE_REGEX] does; its [prefix] and [lineno]. *)
Definition annotation (line : str) : option (str * str) :=
  match re_search METHOD_CLS_HDR_REGEX line, re_search METHOD_REGEX line,
        re_search LINE_REGEX line with
  | None, None, Some (_, m, _) =>
      match group "prefix" m, group "lineno" m with
      | Some prefix, Some lineno => Some (prefix, lineno)
      | _, _ => None
      end
  | _, _, _ => None
  end.

(** What [symbolicate] emits for an annotation with prefix [prefix] whose
    true line is [t]. *)
Definition expansion (sm : SymbolMaps) (prefix : str) (t : Z) : str :=
  txt "        " ++ prefix
  ++ join (txt ", ") (map format_position (get_stack (line_map sm) (t - 1)))
  ++ newline.

(** The tables of a small session: two methods of [com.foo.Bar] with ids 1
    and 2, whose first instructions both come from true line 7. *)
Definition session_lines (method_id : Z) (lineno : str) : option Z :=
  match method_id, int lineno with
  | 1, Some 0 => Some 7
  | 1, Some 1 => Some 7
  | 1, Some 2 => Some 8
  | 2, Some 0 => Some 7
  | _, _ => None
  end.

Definition session_maps (ids : gmap str Z) : SymbolMaps :=
  {| class_map := ∅;
     line_map :=
       {| get_stack := fun n => [mkPosition (txt "Bar.java") (n + 1)] |};
     debug_line_map := Some {| find_line_number := session_lines |};
     iodi_metadata := Some {| collision_free := ids |} |}.

(** The same session with the class table of [foo_maps]. *)
Definition foo_session_maps (ids : gmap str Z) : SymbolMaps :=
  {| class_map := class_map foo_maps;
     line_map := line_map (session_maps ids);
     debug_line_map := debug_line_map (session_maps ids);
     iodi_metadata := iodi_metadata (session_maps ids) |}.

(** Tables whose resolver returns two frames, as for an inlined call. *)
Definition inlined_stack (n : Z) : list Position :=
  [mkPosition (txt "Bar.java") (n + 1); mkPosition (txt "Baz.java") (n + 20)].

Definition inlined_maps : SymbolMaps :=
  {| class_map := ∅;
     line_map := {| get_stack := inlined_stack |};
     debug_line_map := None;
     iodi_metadata := None |}.

Definition inlined_session_maps (ids : gmap str Z) : SymbolMaps :=
  {| class_map := ∅;
     line_map := {| get_stack := inlined_stack |};
     debug_line_map := debug_line_map (session_maps ids);
     iodi_metadata := iodi_metadata (session_maps ids) |}.

Definition both_methods : gmap str Z :=
  {[ txt "com.foo.Bar.a" := 1; txt "com.foo.Bar.b" := 2 ]}.

Definition only_method_a : gmap str Z := {[ txt "com.foo.Bar.a" := 1 ]}.

Definition hdr0 : str := txt "    #0              : (in Lcom/foo/Bar;)".
Definition hdr1 : str := txt "    #1              : (in Lcom/foo/Bar;)".
Definition name_a : str := txt "      name          : 'a'".
Definition name_b : str := txt "      name          : 'b'".

Definition instr (offset lineno : string) : str :=
  txt "        0x" ++ txt offset ++ txt " line=" ++ txt lineno.

(* ------------------------------------------------------------------ *)
(** ** symbolicator.py: the class map, the tables and the driver *)

(** [s.partition(sep)]: the text before the first occurrence of [sep], the
    separator found and the text after it; [(s, "", "")] without one. *)
Fixpoint partition (sep s : str) : str * str * str :=
  if starts_with sep s then ([], sep, skipn (length sep) s)
  else
    match s with
    | [] => ([], [], [])
    | c :: s' => let '(before, found, after) := partition sep s' in
                 (c :: before, found, after)
    end.

Fixpoint lstrip (s : str) : str :=
  match s with
  | c :: s' => if CharClass.space c then lstrip s' else s
  | [] => []
  end.

(** [s.strip()] *)
Definition strip (s : str) : str := rev (lstrip (rev (lstrip s))).

(** The body of the loop of [SymbolMaps.get_class_map] (lines 72-75);
    [None] where [line[0]] raises [IndexError]. *)
Definition class_map_line (mapping : gmap str str) (line : str)
    : option (gmap str str) :=
  if contains (txt " -> ") line then
    match line with
    | [] => None
    | c :: _ =>
        if negb (Ascii.eqb c " ") then
          let '(original, _sep, new) := partition (txt " -> ") line in
          let new := removelast (strip new) in
          Some (<[new := original]> mapping)
        else Some mapping
    end
  else Some mapping.

Fixpoint class_map_lines (mapping : gmap str str) (lines : list str)
    : option (gmap str str) :=
  match lines with
  | [] => Some mapping
  | line :: rest =>
      match class_map_line mapping line with
      | None => None
      | Some mapping' => class_map_lines mapping' rest
      end
  end.

(** [SymbolMaps.get_class_map], on the lines of the mapping file. *)
Definition get_class_map (lines : list str) : option (gmap str str) :=
  class_map_lines ∅ lines.

(** What [SymbolMaps.__init__] finds behind the paths of [symbol_files]:
    the lines of the mapping file ([None] when [open] raises); what
    [PositionMap.read_from] returns ([None] when it raises); and for the
    debug line map and the IODI metadata whether the file exists ([None]
    when [os.path.exists] is false) and what [DebugLineMap.read_from] and
    the [IODIMetadata] constructor make of it ([Some None] when they
    raise). *)
Module SymbolFiles.
Record t : Type := {
  extracted_symbols : option (list str);
  line_map : option PositionMap;
  debug_line_map : option (option DebugLineMap);
  iodi_metadata : option (option IODIMetadata)
}.
End SymbolFiles.

(** How a constructor or [main] leaves: [sys.exit(code)], an exception, or
    a value. *)
Inductive ended (A : Type) : Type :=
| Exit (code : Z)
| Failed
| Done (a : A).
Arguments Exit {A} code.
Arguments Failed {A}.
Arguments Done {A} a.

(** Lines 52-65 of [SymbolMaps.__init__], after the three reads: the test
    of the debug line map comes before the [IODIMetadata] constructor.
    [truthy] is the truth value of a [DebugLineMap] object, which the class
    (outside this development) decides. *)
Definition SymbolMaps_init_iodi (truthy : DebugLineMap -> bool)
    (cm : gmap str str) (lm : PositionMap) (dlm : option DebugLineMap)
    (iodi_file : option (option IODIMetadata)) : ended SymbolMaps :=
  match iodi_file with
  | Some built =>
      if negb (match dlm with Some d => truthy d | None => false end)
      then Exit 1
      else
        match built with
        | None => Failed
        | Some iodi => Done {| class_map := cm;
                               line_map := lm;
                               debug_line_map := dlm;
                               iodi_metadata := Some iodi |}
        end
  | None => Done {| class_map := cm;
                    line_map := lm;
                    debug_line_map := dlm;
                    iodi_metadata := None |}
  end.

(** [SymbolMaps.__init__] (lines 44-65), statement by statement. *)
Definition SymbolMaps_init (truthy : DebugLineMap -> bool)
    (symbol_files : SymbolFiles.t) : ended SymbolMaps :=
  match SymbolFiles.extracted_symbols symbol_files with
  | None => Failed
  | Some lines =>
      match get_class_map lines with
      | None => Failed
      | Some cm =>
          match SymbolFiles.line_map symbol_files with
          | None => Failed
          | Some lm =>
              match SymbolFiles.debug_line_map symbol_files with
              | Some None => Failed
              | Some (Some d) =>
                  SymbolMaps_init_iodi truthy cm lm (Some d)
                    (SymbolFiles.iodi_metadata symbol_files)
              | None =>
                  SymbolMaps_init_iodi truthy cm lm None
                    (SymbolFiles.iodi_metadata symbol_files)
              end
          end
      end
  end.

(** [LinesSymbolicator] (lines 29-40). *)
Module LinesSymbolicator.
Definition symbolicate (sm : SymbolMaps) (line : str) : str :=
  let class_name := firstn (length line - 7) line in
  let class_name := replace "/" "." class_name in
  match class_map sm !! class_name with
  | Some ans => ans ++ newline
  | None => line
  end.
End LinesSymbolicator.

(** The symbolicators [main] chooses from. *)
Inductive symbolicator_kind : Type := Lines | Logcat | Dexdump.

(** The choice of [main] (lines 161-171): [input_type] is [--input-type],
    [is_likely_logcat] the detector of the logcat symbolicator (outside this
    development). *)
Definition choose (is_likely_logcat : str -> bool)
    (input_type : option symbolicator_kind) (first_line : str)
    : symbolicator_kind :=
  match input_type with
  | Some Lines => Lines
  | _ =>
      if match input_type with Some Logcat => true | _ => false end
         || is_likely_logcat first_line
      then Logcat
      else if match input_type with Some Dexdump => true | _ => false end
              || is_likely_dexdump first_line
      then Dexdump
      else Logcat
  end.

(** What [output] has written after a list of outcomes (lines 175-181):
    [None] writes nothing. *)
Fixpoint written (os : list outcome) : str :=
  match os with
  | [] => []
  | Return (Some s) :: os' => s ++ written os'
  | _ :: os' => written os'
  end.

(** The first reads of [main] (lines 153-159): empty strings are passed
    over until a line comes. *)
Fixpoint skip_empty (input : list str) : list str :=
  match input with
  | [] :: rest => skip_empty rest
  | _ => input
  end.

(** [main] from the first read on, with the dexdump symbolicator (lines
    153-159 and 179-181); [input] is what the reader yields.  With nothing
    to read it exits with status 0. *)
Definition main_dexdump (sm : SymbolMaps) (input : list str) : ended str :=
  match skip_empty input with
  | [] => Exit 0
  | lines =>
      let os := snd (run sm init lines) in
      if existsb (fun o => match o with Raise => true | _ => false end) os
      then Failed else Done (written os)
  end.

(** Two states that differ at most in [reading_methods]. *)
Definition same_tracking (st1 st2 : State) : Prop :=
  current_class st1 = current_class st2 /\
  current_method_id st1 = current_method_id st2 /\
  last_line st1 = last_line st2.

(** A change of state applied to the state a block leaves. *)
Definition flow_map (f : State -> State) (x : flow) : flow :=
  match x with
  | Returned st r => Returned (f st) r
  | Raised st => Raised (f st)
  | Fall st => Fall (f st)
  end.

(** A line of the mapping file for a class: [original -> new:]. *)
Definition class_entry (original new : str) : str :=
  original ++ txt " -> " ++ new ++ txt ":" ++ newline.

(** A line that [get_class_map] takes an entry from. *)
Definition top_level_entry (line : str) : bool :=
  contains (txt " -> ") line
  && match line with c :: _ => negb (Ascii.eqb c " ") | [] => false end.

(** The key of the entry a line gives: the text after the first arrow,
    stripped, without its last character. *)
Definition entry_key (line : str) : str :=
  removelast (strip (snd (partition (txt " -> ") line))).

(** The value of the entry: the text before the first arrow. *)
Definition entry_value (line : str) : str :=
  fst (fst (partition (txt " -> ") line)).

(** What one line of the mapping file does to the map. *)
Definition add_entry (mapping : gmap str str) (line : str) : gmap str str :=
  if top_level_entry line
  then <[entry_key line := entry_value line]> mapping
  else mapping.

(** A small mapping file: a class, one of its members, another class. *)
Definition mapping_file : list str :=
  [txt "a.b.C -> com.Foo:" ++ newline;
   txt "    int x -> a" ++ newline;
   txt "d.E -> com.Bar:" ++ newline].

(** The files of a build with IODI metadata and no debug line map; its
    IODI metadata file is broken as well. *)
Definition files_without_debug_line_map : SymbolFiles.t :=
  {| SymbolFiles.extracted_symbols := Some mapping_file;
     SymbolFiles.line_map := Some (line_map foo_maps);
     SymbolFiles.debug_line_map := None;
     SymbolFiles.iodi_metadata := Some None |}.

(** The files of a build without IODI metadata. *)
Definition files_without_iodi : SymbolFiles.t :=
  {| SymbolFiles.extracted_symbols := Some mapping_file;
     SymbolFiles.line_map := Some (line_map foo_maps);
     SymbolFiles.debug_line_map := None;
     SymbolFiles.iodi_metadata := None |}.

(* ------------------------------------------------------------------ *)
(** ** Facts about the matcher *)

Module ReFacts.

Lemma prev_after_app prev a b :
  prev_after prev (a ++ b) = prev_after (prev_after prev a) b.
Proof. revert prev; induction a as [|c a IH]; intros prev; simpl; auto. Qed.

Lemma upto_app (t rest : str) : upto (t ++ rest) rest = t.
Proof.
  unfold upto. rewrite length_app.
  replace (length t + length rest - length rest)%nat with (length t) by lia.
  rewrite firstn_app, firstn_all, Nat.sub_diag. simpl. apply app_nil_r.
Qed.

Lemma upto_nil (s : str) : upto s s = [].
Proof. exact (upto_app [] s). Qed.

Section Greedy.
Context {A : Type} (p : ascii -> bool) (k : option ascii -> str -> option A).

Lemma greedy_sound prev s x :
  greedy p k prev s = Some x ->
  exists h rest, s = h ++ rest /\ forallb p h = true
                 /\ k (prev_after prev h) rest = Some x.
Proof.
  revert prev; induction s as [|c s IH]; intros prev; simpl.
  - intros H. exists [], []. auto.
  - destruct (p c) eqn:Hc.
    + destruct (greedy p k (Some c) s) as [y|] eqn:Hg.
      * intros [= ->]. destruct (IH _ Hg) as (h & rest & -> & Hh & Hk).
        exists (c :: h), rest. simpl. rewrite Hc, Hh. auto.
      * intros H. exists [], (c :: s). auto.
    + intros H. exists [], (c :: s). auto.
Qed.

Lemma greedy_complete prev h rest :
  forallb p h = true -> k (prev_after prev h) rest <> None ->
  greedy p k prev (h ++ rest) <> None.
Proof.
  revert prev; induction h as [|c h IH]; intros prev; simpl.
  - intros _ Hk. destruct rest as [|c s]; simpl; auto.
    destruct (p c); auto. destruct (greedy p k (Some c) s); congruence.
  - intros [Hc Hh]%andb_prop Hk. rewrite Hc.
    specialize (IH (Some c) Hh Hk).
    destruct (greedy p k (Some c) (h ++ rest)); congruence.
Qed.

(** After the longest run the continuation decides, when it succeeds. *)
Lemma greedy_longest prev h rest x :
  forallb p h = true -> k (prev_after prev h) rest = Some x ->
  match rest with c :: _ => p c = false | [] => True end ->
  greedy p k prev (h ++ rest) = Some x.
Proof.
  revert prev; induction h as [|c h IH]; intros prev; simpl.
  - intros _ Hk Hr. destruct rest as [|c s]; simpl; auto. now rewrite Hr.
  - intros [Hc Hh]%andb_prop Hk Hr. rewrite Hc.
    now rewrite (IH (Some c) Hh Hk Hr).
Qed.
End Greedy.

(** *** Stepping through a pattern *)

Section Steps.
Context (r : regex) (o g : captures) (prev : option ascii) (s : str)
        (res : captures * str).

Lemma exec_Ch p :
  exec (Ch p :: r) o g prev s = Some res ->
  exists c s', s = c :: s' /\ p c = true /\ exec r o g (Some c) s' = Some res.
Proof.
  simpl. destruct s as [|c s']; [discriminate|].
  destruct (p c) eqn:Hc; [|discriminate]. eauto.
Qed.

Lemma exec_Star p :
  exec (Star p :: r) o g prev s = Some res ->
  exists h rest, s = h ++ rest /\ forallb p h = true
                 /\ exec r o g (prev_after prev h) rest = Some res.
Proof. simpl. apply greedy_sound. Qed.

Lemma exec_Plus p :
  exec (Plus p :: r) o g prev s = Some res ->
  exists h rest, s = h ++ rest /\ h <> [] /\ forallb p h = true
                 /\ exec r o g (prev_after prev h) rest = Some res.
Proof.
  simpl. destruct s as [|c s']; [discriminate|].
  destruct (p c) eqn:Hc; [|discriminate].
  intros (h & rest & -> & Hh & Hk)%greedy_sound.
  exists (c :: h), rest. simpl. rewrite Hc, Hh. auto.
Qed.
End Steps.

Lemma exec_lit_chars (l : str) r o g prev s res :
  exec (map (fun c => Ch (CharClass.one c)) l ++ r) o g prev s = Some res ->
  exists s', s = l ++ s' /\ exec r o g (prev_after prev l) s' = Some res.
Proof.
  revert prev s; induction l as [|c l IH]; intros prev s; simpl.
  - eauto.
  - destruct s as [|c' s']; [discriminate|].
    unfold CharClass.one at 1. destruct (Ascii.eqb c c') eqn:E; [|discriminate].
    apply Ascii.eqb_eq in E as <-.
    intros (s2 & -> & H)%IH. eauto.
Qed.

Lemma exec_lit x r o g prev s res :
  exec (lit x ++ r) o g prev s = Some res ->
  exists s', s = txt x ++ s' /\ exec r o g (prev_after prev (txt x)) s' = Some res.
Proof. apply exec_lit_chars. Qed.

(** The converse steps, used to build a match. *)
Lemma exec_lit_intro x r o g prev s :
  exec (lit x ++ r) o g prev (txt x ++ s) = exec r o g (prev_after prev (txt x)) s.
Proof.
  unfold lit. generalize (txt x) as l. intros l. revert prev.
  induction l as [|c l IH]; intros prev; simpl; auto.
  unfold CharClass.one at 1. now rewrite Ascii.eqb_refl.
Qed.

End ReFacts.

Import ReFacts.

(** *** The shape of a match of each pattern *)

Module Shapes.

Lemma exec_Open g0 r o g prev s :
  exec (Open g0 :: r) o g prev s = exec r ((g0, s) :: o) g prev s.
Proof. reflexivity. Qed.

Lemma exec_Close g0 from r o g prev s :
  assoc g0 o = Some from ->
  exec (Close g0 :: r) o g prev s = exec r o ((g0, upto from s) :: g) prev s.
Proof. intros H. simpl. now rewrite H. Qed.

Lemma exec_nil o g prev s : exec [] o g prev s = Some (g, s).
Proof. reflexivity. Qed.

Lemma exec_WordB r o g prev s res :
  exec (WordB :: r) o g prev s = Some res ->
  xorb (is_word prev) (is_word (head s)) = true /\ exec r o g prev s = Some res.
Proof. simpl. destruct (xorb _ _); [auto|discriminate]. Qed.

Lemma exec_Bol r o g prev s res :
  exec (Bol :: r) o g prev s = Some res ->
  prev = None /\ exec r o g prev s = Some res.
Proof. simpl. destruct prev; [discriminate|auto]. Qed.

Lemma exec_lit_end x o g prev s res :
  exec (lit x) o g prev s = Some res ->
  exists s', s = txt x ++ s' /\ res = (g, s').
Proof.
  rewrite <- (app_nil_r (lit x)). intros (s' & -> & H)%exec_lit.
  rewrite exec_nil in H. injection H as <-. eauto.
Qed.

Lemma upto_eq (s t rest : str) : s = t ++ rest -> upto s rest = t.
Proof. intros ->. apply upto_app. Qed.

Ltac list_eq := repeat (simpl; rewrite <- ?app_assoc); reflexivity.
Ltac groups_eq :=
  repeat first [reflexivity | solve [apply upto_eq; list_eq] | progress f_equal].

Ltac start_shape E gs rest :=
  unfold match_at;
  match goal with
  | |- context [exec ?r ?o ?g ?p ?s] =>
      destruct (exec r o g p s) as [[gs rest]|] eqn:E; [|discriminate]
  end;
  intros [= <- <-].

Lemma class_match_shape prev s m rest :
  match_at CLASS_REGEX prev s = Some (m, rest) ->
  exists cls,
    class_name CharClass.ident cls /\ is_word prev = false /\
    s = txt "L" ++ cls ++ txt ";" ++ rest /\
    m = mkMatch (txt "L" ++ cls ++ txt ";") [("class"%string, cls)].
Proof.
  start_shape E gs rest'. unfold CLASS_REGEX in E. cbn [app] in E.
  apply exec_WordB in E as [Hb E].
  apply exec_lit in E as (s1 & -> & E). rewrite exec_Open in E.
  apply exec_Ch in E as (c & s2 & -> & Hc & E).
  apply exec_Star in E as (a & s3 & -> & Ha & E).
  apply exec_lit in E as (s4 & -> & E).
  apply exec_Plus in E as (b & s5 & -> & Hb0 & Hb1 & E).
  erewrite exec_Close in E by reflexivity.
  apply exec_lit_end in E as (s6 & -> & [= -> ->]).
  exists (c :: a ++ txt "/" ++ b). split; [|split; [|split]].
  - exists c, a, b. auto.
  - simpl in Hb. destruct (is_word prev); [discriminate|reflexivity].
  - list_eq.
  - groups_eq.
Qed.

Lemma line_match_shape prev s m rest :
  match_at LINE_REGEX prev s = Some (m, rest) ->
  exists h d,
    h <> [] /\ forallb CharClass.hexlower h = true /\
    d <> [] /\ forallb CharClass.digit d = true /\
    s = txt "0x" ++ h ++ txt " line=" ++ d ++ rest /\
    m = mkMatch (txt "0x" ++ h ++ txt " line=" ++ d)
          [("lineno"%string, d);
           ("prefix"%string, txt "0x" ++ h ++ txt " line=")].
Proof.
  start_shape E gs rest'. unfold LINE_REGEX in E. cbn [app] in E.
  rewrite exec_Open in E.
  apply exec_lit in E as (s1 & -> & E).
  apply exec_Plus in E as (h & s2 & -> & Hh & Hhex & E).
  apply exec_lit in E as (s3 & -> & E).
  erewrite exec_Close in E by reflexivity. rewrite exec_Open in E.
  apply exec_Plus in E as (d & s4 & -> & Hd & Hdig & E).
  erewrite exec_Close in E by reflexivity. rewrite exec_nil in E.
  injection E as <- <-.
  exists h, d. repeat split; auto.
  groups_eq.
Qed.

Lemma method_cls_hdr_match_shape prev s m rest :
  match_at METHOD_CLS_HDR_REGEX prev s = Some (m, rest) ->
  exists cls,
    class_name CharClass.alnum cls /\ group "class" m = Some cls.
Proof.
  start_shape E gs rest'. unfold METHOD_CLS_HDR_REGEX in E. cbn [app] in E.
  apply exec_lit in E as (s1 & -> & E).
  apply exec_Plus in E as (n & s2 & -> & _ & _ & E).
  apply exec_Plus in E as (w1 & s3 & -> & _ & _ & E).
  apply exec_lit in E as (s4 & -> & E).
  apply exec_Plus in E as (w2 & s5 & -> & _ & _ & E).
  apply exec_lit in E as (s6 & -> & E). rewrite exec_Open in E.
  apply exec_Ch in E as (c & s7 & -> & Hc & E).
  apply exec_Star in E as (a & s8 & -> & Ha & E).
  apply exec_lit in E as (s9 & -> & E).
  apply exec_Plus in E as (b & s10 & -> & Hb0 & Hb1 & E).
  erewrite exec_Close in E by reflexivity.
  apply exec_lit_end in E as (s11 & -> & [= -> ->]).
  exists (c :: a ++ txt "/" ++ b). split.
  - exists c, a, b. auto.
  - unfold group. simpl assoc. groups_eq.
Qed.

Lemma method_match_shape prev s m rest :
  match_at METHOD_REGEX prev s = Some (m, rest) ->
  exists c t,
    CharClass.method_head c = true /\ forallb CharClass.method_tail t = true /\
    group "method" m = Some (c :: t).
Proof.
  start_shape E gs rest'. unfold METHOD_REGEX in E. cbn [app] in E.
  apply exec_lit in E as (s1 & -> & E).
  apply exec_Plus in E as (w1 & s2 & -> & _ & _ & E).
  apply exec_lit in E as (s3 & -> & E).
  apply exec_Plus in E as (w2 & s4 & -> & _ & _ & E).
  apply exec_lit in E as (s5 & -> & E). rewrite exec_Open in E.
  apply exec_Ch in E as (c & s6 & -> & Hc & E).
  apply exec_Star in E as (t & s7 & -> & Ht & E).
  erewrite exec_Close in E by reflexivity.
  apply exec_lit_end in E as (s8 & -> & [= -> ->]).
  exists c, t. repeat split; auto.
  unfold group. simpl assoc. groups_eq.
Qed.

Lemma exec_Plus_complete p r o g prev h rest :
  h <> [] -> forallb p h = true ->
  exec r o g (prev_after prev h) rest <> None ->
  exec (Plus p :: r) o g prev (h ++ rest) <> None.
Proof.
  intros Hne Hh Hk. destruct h as [|c h]; [congruence|].
  apply andb_prop in Hh as [Hc Hh]. simpl. rewrite Hc.
  now apply greedy_complete.
Qed.

(** Text of the form [0x<hex> line=<digits>] is matched by [LINE_REGEX]. *)
Lemma line_match_intro prev h d b :
  h <> [] -> forallb CharClass.hexlower h = true ->
  d <> [] -> forallb CharClass.digit d = true ->
  match_at LINE_REGEX prev (txt "0x" ++ h ++ txt " line=" ++ d ++ b) <> None.
Proof.
  intros Hh Hhex Hd Hdig. unfold match_at, LINE_REGEX. cbn [app].
  rewrite exec_Open, exec_lit_intro.
  match goal with
  | |- match ?e with _ => _ end <> None =>
      assert (He : e <> None); [|destruct e as [[? ?]|]; congruence]
  end.
  apply exec_Plus_complete; auto.
  rewrite exec_lit_intro. erewrite exec_Close by reflexivity.
  rewrite exec_Open. apply exec_Plus_complete; auto.
Qed.

End Shapes.

Import Shapes.

(** *** Searching and substituting *)

Module Scan.

Lemma exec_suffix r : forall o g prev s gs rest,
  exec r o g prev s = Some (gs, rest) -> exists t, s = t ++ rest.
Proof.
  induction r as [|i r IH]; intros o g prev s gs rest E.
  - rewrite exec_nil in E. injection E as <- <-. now exists [].
  - destruct i.
    + apply exec_Ch in E as (c & s' & -> & _ & E).
      destruct (IH _ _ _ _ _ _ E) as [t ->]. now exists (c :: t).
    + apply exec_Star in E as (h & s' & -> & _ & E).
      destruct (IH _ _ _ _ _ _ E) as [t ->]. exists (h ++ t). list_eq.
    + apply exec_Plus in E as (h & s' & -> & _ & _ & E).
      destruct (IH _ _ _ _ _ _ E) as [t ->]. exists (h ++ t). list_eq.
    + apply exec_WordB in E as [_ E]. eauto.
    + apply exec_Bol in E as [_ E]. eauto.
    + rewrite exec_Open in E. eauto.
    + simpl in E. destruct (assoc g0 o); [eauto|discriminate].
Qed.

(** A match object holds the text it covers. *)
Lemma match_at_text r prev s m rest :
  match_at r prev s = Some (m, rest) -> s = m_text m ++ rest.
Proof.
  unfold match_at. destruct (exec r [] [] prev s) as [[gs rest']|] eqn:E;
    [|discriminate].
  intros [= <- <-]. destruct (exec_suffix _ _ _ _ _ _ _ E) as [t ->].
  simpl. now rewrite upto_app.
Qed.

(** [search_from] returns the leftmost position at which the pattern
    matches. *)
Lemma search_from_Some r : forall s before prev pre m post,
  search_from r before prev s = Some (pre, m, post) ->
  exists a,
    pre = rev before ++ a /\ s = a ++ m_text m ++ post /\
    match_at r (prev_after prev a) (m_text m ++ post) = Some (m, post) /\
    forall a1 a2, a = a1 ++ a2 -> a2 <> [] ->
      match_at r (prev_after prev a1) (a2 ++ m_text m ++ post) = None.
Proof.
  induction s as [|c s IH]; intros before prev pre m post; simpl.
  - destruct (match_at r prev []) as [[m' rest]|] eqn:E; [|discriminate].
    intros [= <- <- <-]. exists []. rewrite app_nil_r.
    pose proof (match_at_text _ _ _ _ _ E) as Ht. simpl. rewrite <- Ht.
    repeat split; auto. intros a1 a2 Ha Hne. destruct a1, a2; try discriminate.
    congruence.
  - destruct (match_at r prev (c :: s)) as [[m' rest]|] eqn:E.
    + intros [= <- <- <-]. exists []. rewrite app_nil_r.
      pose proof (match_at_text _ _ _ _ _ E) as Ht. simpl. rewrite <- Ht.
      repeat split; auto. intros a1 a2 Ha Hne.
      destruct a1, a2; try discriminate. congruence.
    + intros (a & -> & -> & Hm & Hleft)%IH. exists (c :: a).
      split; [simpl; now rewrite <- app_assoc|]. split; [reflexivity|].
      split; [exact Hm|]. intros a1 a2 Ha Hne.
      destruct a1 as [|c1 a1]; simpl in Ha.
      * subst a2. simpl. exact E.
      * injection Ha as <- ->. simpl. now apply Hleft.
Qed.

Lemma search_from_None r : forall s before prev,
  search_from r before prev s = None ->
  forall a s', s = a ++ s' -> match_at r (prev_after prev a) s' = None.
Proof.
  induction s as [|c s IH]; intros before prev; simpl.
  - destruct (match_at r prev []) as [[m' rest]|] eqn:E; [discriminate|].
    intros _ a s' Ha. symmetry in Ha. apply app_eq_nil in Ha as [-> ->]. exact E.
  - destruct (match_at r prev (c :: s)) as [[m' rest]|] eqn:E; [discriminate|].
    intros H a s' Ha. destruct a as [|c1 a]; simpl in Ha.
    + subst s'. exact E.
    + injection Ha as <- ->. simpl. eapply IH; eauto.
Qed.

Lemma re_search_Some r s pre m post :
  re_search r s = Some (pre, m, post) ->
  s = pre ++ m_text m ++ post /\
  match_at r (prev_after None pre) (m_text m ++ post) = Some (m, post).
Proof.
  intros (a & -> & -> & Hm & _)%search_from_Some. simpl. auto.
Qed.

(** A match anywhere makes the search succeed. *)
Lemma re_search_complete r a s :
  match_at r (prev_after None a) s <> None -> re_search r (a ++ s) <> None.
Proof.
  intros Hm Hs. apply Hm. eapply search_from_None; eauto.
Qed.



Section Sub.
Context (r : regex) (repl : Match -> option str).

(** Passing over the text of a match. *)
Lemma sub_from_skip : forall t prev s,
  sub_from r repl prev (length t) (t ++ s)
  = sub_from r repl (prev_after prev t) O s.
Proof.
  induction t as [|c t IH]; intros prev s; simpl; auto.
Qed.

Lemma sub_from_no_match : forall s prev,
  (forall a s', s = a ++ s' -> match_at r (prev_after prev a) s' = None) ->
  sub_from r repl prev O s = Some s.
Proof.
  induction s as [|c s IH]; intros prev H; simpl.
  - pose proof (H [] [] eq_refl) as E. simpl in E. now rewrite E.
  - pose proof (H [] (c :: s) eq_refl) as E. simpl in E. rewrite E.
    rewrite IH; [reflexivity|].
    intros a s' ->. exact (H (c :: a) s' eq_refl).
Qed.

(** At a match with text, the replacement is spliced in and the scan goes on
    after the match. *)
Lemma sub_from_at_match prev m post :
  match_at r prev (m_text m ++ post) = Some (m, post) ->
  m_text m <> [] ->
  sub_from r repl prev O (m_text m ++ post)
  = match repl m with
    | None => None
    | Some out =>
        option_map (app out)
          (sub_from r repl (prev_after prev (m_text m)) O post)
    end.
Proof.
  intros Hm Hne. destruct (m_text m ++ post) as [|c s'] eqn:Hs.
  - destruct (m_text m); [congruence|discriminate].
  - simpl. rewrite Hm. destruct (repl m) as [out|]; [|reflexivity].
    destruct (m_text m) as [|c1 t] eqn:Ht; [congruence|].
    simpl in Hs. injection Hs as -> <-. simpl.
    now rewrite sub_from_skip.
Qed.

Lemma sub_from_before_match : forall a prev s,
  (forall a1 a2, a = a1 ++ a2 -> a2 <> [] ->
     match_at r (prev_after prev a1) (a2 ++ s) = None) ->
  sub_from r repl prev O (a ++ s)
  = option_map (app a) (sub_from r repl (prev_after prev a) O s).
Proof.
  induction a as [|c a IH]; intros prev s H; simpl.
  - now destruct (sub_from r repl prev O s).
  - pose proof (H [] (c :: a) eq_refl ltac:(discriminate)) as E.
    simpl in E. rewrite E. rewrite IH.
    + now destruct (sub_from r repl (prev_after (Some c) a) O s).
    + intros a1 a2 -> Hne. exact (H (c :: a1) a2 eq_refl Hne).
Qed.

(** The substitution raises only if the replacement does. *)
Lemma sub_from_total :
  (forall prev s m rest, match_at r prev s = Some (m, rest) -> repl m <> None) ->
  forall s prev skip, sub_from r repl prev skip s <> None.
Proof.
  intros Hrepl. induction s as [|c s IH]; intros prev skip.
  - destruct skip; simpl; [|discriminate].
    destruct (match_at r prev []) as [[m rest]|] eqn:E; [|discriminate].
    specialize (Hrepl _ _ _ _ E). destruct (repl m); congruence.
  - destruct skip as [|k]; simpl; [|apply IH].
    destruct (match_at r prev (c :: s)) as [[m rest]|] eqn:E.
    + specialize (Hrepl _ _ _ _ E). destruct (repl m) as [out|]; [|congruence].
      destruct (length (m_text m)) as [|k].
      * specialize (IH (Some c) O). destruct (sub_from r repl (Some c) O s);
          [discriminate|congruence].
      * specialize (IH (Some c) k). destruct (sub_from r repl (Some c) k s);
          [discriminate|congruence].
    + specialize (IH (Some c) O). destruct (sub_from r repl (Some c) O s);
        [discriminate|congruence].
Qed.

End Sub.

Lemma re_sub_no_match r repl s :
  re_search r s = None -> re_sub r repl s = Some s.
Proof.
  intros H. apply sub_from_no_match. intros a s' Hs.
  eapply search_from_None; eauto.
Qed.

(** The substitution at the leftmost match. *)
Lemma re_sub_at_search r repl s pre m post :
  re_search r s = Some (pre, m, post) -> m_text m <> [] ->
  re_sub r repl s
  = match repl m with
    | None => None
    | Some out =>
        option_map (fun t => pre ++ out ++ t)
          (sub_from r repl (prev_after None (pre ++ m_text m)) O post)
    end.
Proof.
  intros (a & -> & -> & Hm & Hleft)%search_from_Some Hne.
  unfold re_sub. simpl rev. simpl app at 2 3.
  rewrite sub_from_before_match by exact Hleft.
  rewrite sub_from_at_match by assumption.
  rewrite prev_after_app.
  destruct (repl m) as [out|]; [|reflexivity].
  now destruct (sub_from r repl _ O post).
Qed.

End Scan.

Import Scan.

(* ------------------------------------------------------------------ *)
(** ** The symbolicator returns *)

Lemma digits_value_total d : forall acc,
  forallb CharClass.digit d = true -> exists n, digits_value acc d = Some n.
Proof.
  induction d as [|c d IH]; intros acc; simpl.
  - eauto.
  - intros [Hc Hd]%andb_prop. rewrite Hc. auto.
Qed.

Lemma int_digits d :
  d <> [] -> forallb CharClass.digit d = true ->
  (length d <= int_max_str_digits)%nat ->
  exists n, int d = Some n.
Proof.
  intros Hne Hd Hlen. destruct d as [|c d]; [congruence|].
  unfold int. rewrite (proj2 (Nat.ltb_ge _ _) Hlen).
  now apply digits_value_total.
Qed.

Lemma int_long d :
  (int_max_str_digits < length d)%nat -> int d = None.
Proof.
  intros Hlen. destruct d as [|c d]; [reflexivity|].
  unfold int. now rewrite (proj2 (Nat.ltb_lt _ _) Hlen).
Qed.

Lemma digits_value_app d e : forall acc,
  digits_value acc (d ++ e)
  = match digits_value acc d with
    | Some a => digits_value a e
    | None => None
    end.
Proof.
  induction d as [|c d IH]; intros acc; simpl; [reflexivity|].
  destruct (CharClass.digit c); [apply IH|reflexivity].
Qed.

(** [int] reads decimal notation: a last digit adds its value to ten times
    the value of the digits before it. *)
Lemma int_decimal :
  (forall c, CharClass.digit c = true ->
             int [c] = Some (Z.of_N (CharClass.code c) - 48)) /\
  (forall d c n,
     d <> [] -> (length (d ++ [c]) <= int_max_str_digits)%nat ->
     int d = Some n -> CharClass.digit c = true ->
     int (d ++ [c]) = Some (10 * n + (Z.of_N (CharClass.code c) - 48))).
Proof.
  split.
  - intros c Hc. unfold int. simpl. now rewrite Hc.
  - intros d c n Hne Hlen Hd Hc.
    assert (Hlen' : (length d <= int_max_str_digits)%nat)
      by (rewrite length_app in Hlen; simpl in Hlen; lia).
    destruct d as [|x d]; [congruence|].
    unfold int in Hd |- *. rewrite (proj2 (Nat.ltb_ge _ _) Hlen') in Hd.
    change ((x :: d) ++ [c]) with (x :: (d ++ [c])) in Hlen |- *.
    rewrite (proj2 (Nat.ltb_ge _ _) Hlen).
    change (x :: (d ++ [c])) with ((x :: d) ++ [c]).
    rewrite digits_value_app, Hd. simpl. now rewrite Hc.
Qed.

(** [", ".join] puts the separator between consecutive items, in order. *)
Lemma join_cons sep x y l :
  join sep [] = [] /\ join sep [x] = x /\
  join sep (x :: y :: l) = x ++ sep ++ join sep (y :: l).
Proof. repeat split. Qed.



Lemma class_replacer_total sm prev s m rest :
  match_at CLASS_REGEX prev s = Some (m, rest) -> class_replacer sm m <> None.
Proof.
  intros (cls & _ & _ & _ & ->)%class_match_shape.
  unfold class_replacer, group. simpl.
  destruct (class_map sm !! replace "/" "." cls); discriminate.
Qed.

(** The class substitution always returns. *)
Lemma class_sub_returns sm line :
  exists line1, re_sub CLASS_REGEX (class_replacer sm) line = Some line1.
Proof.
  destruct (re_sub CLASS_REGEX (class_replacer sm) line) as [line1|] eqn:E1;
    [eauto|].
  exfalso. revert E1. apply sub_from_total. apply class_replacer_total.
Qed.


(** [symbolicate] ends with the line substitution on the line the class
    substitution returns. *)
Lemma rewrite_spec sm line :
  exists line1,
    re_sub CLASS_REGEX (class_replacer sm) line = Some line1 /\
    rewrite sm line = returned (re_sub LINE_REGEX (line_replacer sm) line1).
Proof.
  destruct (class_sub_returns sm line) as [line1 E1]. exists line1.
  split; [exact E1|]. unfold rewrite. rewrite E1.
  now destruct (re_sub LINE_REGEX (line_replacer sm) line1).
Qed.

Lemma rewrite_not_none sm line : rewrite sm line <> Return None.
Proof.
  destruct (rewrite_spec sm line) as (line1 & _ & ->).
  destruct (re_sub LINE_REGEX (line_replacer sm) line1); discriminate.
Qed.



(** The groups the alternate-encoding block reads exist in every match. *)
Lemma search_hdr_group line pre m post :
  re_search METHOD_CLS_HDR_REGEX line = Some (pre, m, post) ->
  exists cls, group "class" m = Some cls.
Proof.
  intros [_ (cls & _ & H)%method_cls_hdr_match_shape]%re_search_Some. eauto.
Qed.

Lemma search_method_group line pre m post :
  re_search METHOD_REGEX line = Some (pre, m, post) ->
  exists name, group "method" m = Some name.
Proof.
  intros [_ (c & t & _ & _ & H)%method_match_shape]%re_search_Some. eauto.
Qed.

Lemma search_line_groups line pre m post :
  re_search LINE_REGEX line = Some (pre, m, post) ->
  exists h d,
    h <> [] /\ forallb CharClass.hexlower h = true /\
    d <> [] /\ forallb CharClass.digit d = true /\
    line = pre ++ txt "0x" ++ h ++ txt " line=" ++ d ++ post /\
    m_text m = txt "0x" ++ h ++ txt " line=" ++ d /\
    group "prefix" m = Some (txt "0x" ++ h ++ txt " line=") /\
    group "lineno" m = Some d.
Proof.
  intros [Hl (h & d & Hh & Hhex & Hd & Hdig & Hs & ->)%line_match_shape]
    %re_search_Some.
  exists h, d. simpl in Hl. repeat split; auto.
  rewrite Hl. list_eq.
Qed.

Lemma instruction_line_no_raise sm st mid line pre m post dlm :
  debug_line_map sm = Some dlm ->
  re_search LINE_REGEX line = Some (pre, m, post) ->
  forall st', instruction_line sm st mid m <> Raised st'.
Proof.
  intros Hdlm (h & d & _ & _ & _ & _ & _ & _ & Hp & Hl)%search_line_groups st'.
  unfold instruction_line. rewrite Hdlm, Hl, Hp.
  destruct (find_line_number dlm mid d) as [t|]; [|discriminate].
  destruct (t =? 0); [discriminate|].
  destruct (bool_decide _); discriminate.
Qed.

Lemma iodi_block_no_raise sm iodi st line :
  debug_line_map sm <> None ->
  forall st', iodi_block sm iodi st line <> Raised st'.
Proof.
  intros Hdlm st'. unfold iodi_block.
  destruct (re_search METHOD_CLS_HDR_REGEX line) as [[[pre m] post]|] eqn:E1.
  { destruct (search_hdr_group _ _ _ _ E1) as [cls ->]. discriminate. }
  destruct (current_class st) as [cls|]; [|discriminate].
  destruct (re_search METHOD_REGEX line) as [[[pre m] post]|] eqn:E2.
  { destruct (search_method_group _ _ _ _ E2) as [name ->].
    destruct (collision_free iodi !! _); discriminate. }
  destruct (current_method_id st) as [mid|]; [|discriminate].
  destruct (re_search LINE_REGEX line) as [[[pre m] post]|] eqn:E3;
    [|discriminate].
  destruct (debug_line_map sm) as [dlm|] eqn:Ed; [|congruence].
  eapply instruction_line_no_raise; eauto.
Qed.





(** C8. A line in which neither [CLASS_REGEX] nor [LINE_REGEX] finds a match
    is returned unchanged, in every state and with every table. *)
Theorem symbolicate_identity_on_plain_lines sm st line :
  re_search CLASS_REGEX line = None ->
  re_search LINE_REGEX line = None ->
  snd (symbolicate sm st line) = Return (Some line).
Proof.
  intros Hc Hl.
  assert (Hrw : rewrite sm line = Return (Some line)).
  { unfold rewrite. rewrite (re_sub_no_match _ _ _ Hc).
    now rewrite (re_sub_no_match _ _ _ Hl). }
  unfold symbolicate. destruct (iodi_metadata sm) as [iodi|]; [|exact Hrw].
  assert (Hfall : exists st1, iodi_block sm iodi st line = Fall st1).
  { unfold iodi_block.
    destruct (re_search METHOD_CLS_HDR_REGEX line) as [[[pre m] post]|] eqn:E1.
    { destruct (search_hdr_group _ _ _ _ E1) as [cls ->]. eauto. }
    destruct (current_class st) as [cls|]; [|eauto].
    destruct (re_search METHOD_REGEX line) as [[[pre m] post]|] eqn:E2.
    { destruct (search_method_group _ _ _ _ E2) as [name ->].
      destruct (collision_free iodi !! _); eauto. }
    destruct (current_method_id st) as [mid|]; [|eauto].
    rewrite Hl. eauto. }
  destruct Hfall as [st1 ->]. exact Hrw.
Qed.

(* ------------------------------------------------------------------ *)
(** ** The input-kind detector *)

Lemma processing_match_shape line m rest :
  match_at PROCESSING_REGEX None line = Some (m, rest) ->
  exists a,
    forallb CharClass.dot a = true /\
    line = txt "Processing '" ++ a ++ txt ".dex'" ++ rest.
Proof.
  start_shape E gs rest'. unfold PROCESSING_REGEX in E. cbn [app] in E.
  apply exec_Bol in E as [_ E].
  apply exec_lit in E as (s1 & -> & E).
  apply exec_Star in E as (a & s2 & -> & Ha & E).
  apply exec_lit_end in E as (s3 & -> & [= -> ->]).
  exists a. split; [exact Ha|list_eq].
Qed.

Lemma processing_match_intro a b :
  forallb CharClass.dot a = true ->
  match_at PROCESSING_REGEX None (txt "Processing '" ++ a ++ txt ".dex'" ++ b)
  <> None.
Proof.
  intros Ha. unfold match_at, PROCESSING_REGEX. cbn [app exec].
  rewrite exec_lit_intro.
  change (exec (Star CharClass.dot :: lit ".dex'") [] []
            (prev_after None (txt "Processing '")) (a ++ txt ".dex'" ++ b))
    with (greedy CharClass.dot (exec (lit ".dex'") [] [])
            (prev_after None (txt "Processing '")) (a ++ txt ".dex'" ++ b)).
  match goal with
  | |- match ?g with _ => _ end <> None =>
      assert (Hg : g <> None); [|destruct g as [[? ?]|]; congruence]
  end.
  apply greedy_complete; [exact Ha|].
  rewrite <- (app_nil_r (lit ".dex'")), exec_lit_intro. discriminate.
Qed.

Lemma class_num_match_shape prev s m rest :
  match_at CLASS_NUM_REGEX prev s = Some (m, rest) ->
  exists d t, CharClass.digit d = true /\ s = txt "Class #" ++ d :: t.
Proof.
  start_shape E gs rest'. unfold CLASS_NUM_REGEX in E.
  apply exec_lit in E as (s1 & -> & E).
  apply exec_Plus in E as (h & s2 & -> & Hne & Hd & E).
  destruct h as [|d h]; [congruence|].
  apply andb_prop in Hd as [Hd _]. exists d, (h ++ s2). split; [exact Hd|].
  list_eq.
Qed.

Lemma class_num_match_intro prev d b :
  CharClass.digit d = true ->
  match_at CLASS_NUM_REGEX prev (txt "Class #" ++ d :: b) <> None.
Proof.
  intros Hd. unfold match_at, CLASS_NUM_REGEX. rewrite exec_lit_intro.
  cbn [exec]. rewrite Hd.
  match goal with
  | |- match ?g with _ => _ end <> None =>
      assert (Hg : g <> None); [|destruct g as [[? ?]|]; congruence]
  end.
  apply (greedy_complete _ _ _ [] b); [reflexivity|discriminate].
Qed.

(** C9. [is_likely_dexdump] holds exactly for the lines that begin with
    [Processing '], some text without a newline and [.dex'], and for the
    lines that contain [Class #] followed by a digit; so it holds for
    [Processing 'foo.dex'...] and for a line containing [Class #3], and fails
    for a line of neither kind. *)
Theorem is_likely_dexdump_spec :
  (forall line,
     is_likely_dexdump line = true <->
     (exists a b, forallb CharClass.dot a = true /\
                  line = txt "Processing '" ++ a ++ txt ".dex'" ++ b)
     \/ (exists a d b, CharClass.digit d = true /\
                       line = a ++ txt "Class #" ++ d :: b))
  /\ is_likely_dexdump (txt "Processing 'foo.dex'...") = true
  /\ (forall a b, is_likely_dexdump (a ++ txt "Class #3" ++ b) = true)
  /\ is_likely_dexdump (txt "registers     : 1") = false.
Proof.
  assert (Hspec : forall line,
     is_likely_dexdump line = true <->
     (exists a b, forallb CharClass.dot a = true /\
                  line = txt "Processing '" ++ a ++ txt ".dex'" ++ b)
     \/ (exists a d b, CharClass.digit d = true /\
                       line = a ++ txt "Class #" ++ d :: b)).
  { intros line. unfold is_likely_dexdump. rewrite orb_true_iff.
    rewrite !bool_decide_eq_true. split.
    - intros [[m Hm]|[[[pre m] post] Hs]].
      + left. unfold re_match in Hm.
        destruct (match_at PROCESSING_REGEX None line) as [[m' rest]|] eqn:E;
          [|discriminate].
        apply processing_match_shape in E as (a & Ha & ->). eauto.
      + right. apply re_search_Some in Hs as [-> Hm].
        apply class_num_match_shape in Hm as (d & t & Hd & Ht).
        exists pre, d, t. rewrite Ht. auto.
    - intros [(a & b & Ha & ->)|(a & d & b & Hd & ->)].
      + left. unfold re_match.
        pose proof (processing_match_intro a b Ha) as H.
        destruct (match_at PROCESSING_REGEX None _) as [[m rest]|];
          [simpl; eauto|congruence].
      + right.
        pose proof (re_search_complete CLASS_NUM_REGEX a _
                      (class_num_match_intro _ d b Hd)) as H.
        destruct (re_search CLASS_NUM_REGEX _); [eauto|congruence]. }
  split; [exact Hspec|]. split; [reflexivity|]. split; [|reflexivity].
  intros a b. apply Hspec. right. exists a, "3"%char, b. split; [reflexivity|].
  list_eq.
Qed.

(* ------------------------------------------------------------------ *)
(** ** The two rewriters *)

Lemma not_consumed sm st line :
  consumed sm st line = false -> snd (symbolicate sm st line) = rewrite sm line.
Proof.
  unfold consumed, symbolicate. destruct (iodi_metadata sm) as [iodi|]; [|auto].
  destruct (iodi_block sm iodi st line); try discriminate. auto.
Qed.

Lemma exec_Star_longest p r o g prev h rest x :
  forallb p h = true -> exec r o g (prev_after prev h) rest = Some x ->
  match rest with c :: _ => p c = false | [] => True end ->
  exec (Star p :: r) o g prev (h ++ rest) = Some x.
Proof. intros. simpl. now apply greedy_longest. Qed.

Lemma exec_Plus_longest p r o g prev h rest x :
  h <> [] -> forallb p h = true ->
  exec r o g (prev_after prev h) rest = Some x ->
  match rest with c :: _ => p c = false | [] => True end ->
  exec (Plus p :: r) o g prev (h ++ rest) = Some x.
Proof.
  intros Hne Hh Hk Hr. destruct h as [|c h]; [congruence|].
  apply andb_prop in Hh as [Hc Hh]. simpl. rewrite Hc.
  now apply greedy_longest.
Qed.

Lemma exec_WordB_intro r o g prev s :
  xorb (is_word prev) (is_word (head s)) = true ->
  exec (WordB :: r) o g prev s = exec r o g prev s.
Proof. intros H. simpl. now rewrite H. Qed.

Lemma exec_Ch_intro p r o g prev c s :
  p c = true -> exec (Ch p :: r) o g prev (c :: s) = exec r o g (Some c) s.
Proof. intros H. simpl. now rewrite H. Qed.

(** A descriptor that does not follow a word character is matched whole. *)
Lemma class_match_intro prev cls rest :
  class_name CharClass.ident cls -> is_word prev = false ->
  match_at CLASS_REGEX prev (txt "L" ++ cls ++ txt ";" ++ rest)
  = Some (mkMatch (txt "L" ++ cls ++ txt ";") [("class"%string, cls)], rest).
Proof.
  intros (c & a & b & -> & Hc & Ha & Hb & Hbs) Hw.
  unfold match_at, CLASS_REGEX. cbn [app].
  rewrite exec_WordB_intro by (rewrite Hw; reflexivity).
  rewrite exec_lit_intro, exec_Open.
  change ((c :: a ++ txt "/" ++ b) ++ txt ";" ++ rest)
    with (c :: (a ++ txt "/" ++ b) ++ txt ";" ++ rest).
  rewrite exec_Ch_intro by exact Hc.
  rewrite <- !app_assoc.
  erewrite exec_Star_longest; [| exact Ha | | reflexivity].
  2:{ rewrite exec_lit_intro.
      apply exec_Plus_longest; [exact Hb|exact Hbs| |reflexivity].
      erewrite exec_Close by reflexivity.
      rewrite <- (app_nil_r (lit ";")), exec_lit_intro, exec_nil.
      reflexivity. }
  cbv beta iota. groups_eq.
Qed.



(** C4, as stated, fails on an annotation of more than [int_max_str_digits]
    digits: the line holds the pattern and is not consumed, and [int] raises
    in [line_replacer] instead of the text being replaced. *)
Lemma long_line_number_not_replaced :
  let sm := foo_session_maps both_methods in
  let line := txt "0x0010 line=" ++ repeat "0"%char 4301 in
  consumed sm init line = false /\
  re_search LINE_REGEX line <> None /\
  snd (symbolicate sm init line) = Raise.
Proof.
  cbv zeta. split; [vm_compute; reflexivity|].
  split; [vm_compute; discriminate|vm_compute; reflexivity].
Qed.

(** C4, amended. A line that the alternate-encoding block does not consume
    goes through the class substitution (which leaves a line without class
    descriptors as it is) and then the line substitution, and ends as that
    one does.  Text of the form [0x<hex> line=<digits>] in it is found by
    [LINE_REGEX]; where the pattern first matches, with prefix
    [0x<hex> line=] and digits [d]: when [d] has more than
    [int_max_str_digits] digits the call raises; otherwise the matched text
    is replaced by the prefix followed by the resolver's stack for
    [int d - 1], formatted [file:line] and joined with [", "] in the
    resolver's order, the text before the match is kept and the scan goes on
    after it.  [int] reads decimal notation and [join] puts the separator
    between consecutive items.  So [0x0010 line=5] becomes
    [0x0010 line=Foo.java:10] when the stack for 4 is [Foo.java:10] and
    [0x0010 line=] when it is empty, and [0x0010 line=12] becomes
    [0x0010 line=Bar.java:12, Baz.java:31] when the stack for 11 holds these
    two frames. *)
Theorem line_annotation_rewrite sm st line :
  consumed sm st line = false ->
  (exists line1,
     re_sub CLASS_REGEX (class_replacer sm) line = Some line1 /\
     (re_search CLASS_REGEX line = None -> line1 = line) /\
     snd (symbolicate sm st line)
     = returned (re_sub LINE_REGEX (line_replacer sm) line1) /\
     (forall a h d b,
        h <> [] -> forallb CharClass.hexlower h = true ->
        d <> [] -> forallb CharClass.digit d = true ->
        line1 = a ++ txt "0x" ++ h ++ txt " line=" ++ d ++ b ->
        re_search LINE_REGEX line1 <> None) /\
     forall pre m post,
       re_search LINE_REGEX line1 = Some (pre, m, post) ->
       exists h d,
         line1 = pre ++ txt "0x" ++ h ++ txt " line=" ++ d ++ post /\
         m_text m = txt "0x" ++ h ++ txt " line=" ++ d /\
         d <> [] /\ forallb CharClass.digit d = true /\
         ((int_max_str_digits < length d)%nat ->
          snd (symbolicate sm st line) = Raise) /\
         ((length d <= int_max_str_digits)%nat ->
          exists n,
            int d = Some n /\
            re_sub LINE_REGEX (line_replacer sm) line1
            = option_map
                (fun tail =>
                   pre ++ txt "0x" ++ h ++ txt " line="
                   ++ join (txt ", ")
                        (map format_position
                           (get_stack (line_map sm) (n - 1)))
                   ++ tail)
                (sub_from LINE_REGEX (line_replacer sm)
                   (prev_after None (pre ++ m_text m)) O post)))
  /\ ((forall c, CharClass.digit c = true ->
                 int [c] = Some (Z.of_N (CharClass.code c) - 48)) /\
      (forall d c n,
         d <> [] -> (length (d ++ [c]) <= int_max_str_digits)%nat ->
         int d = Some n -> CharClass.digit c = true ->
         int (d ++ [c]) = Some (10 * n + (Z.of_N (CharClass.code c) - 48))))
  /\ (forall sep x y l,
        join sep [] = [] /\ join sep [x] = x /\
        join sep (x :: y :: l) = x ++ sep ++ join sep (y :: l))
  /\ (line = txt "0x0010 line=5" ->
      get_stack (line_map sm) 4 = [mkPosition (txt "Foo.java") 10] ->
      snd (symbolicate sm st line) = Return (Some (txt "0x0010 line=Foo.java:10")))
  /\ (line = txt "0x0010 line=5" ->
      get_stack (line_map sm) 4 = [] ->
      snd (symbolicate sm st line) = Return (Some (txt "0x0010 line=")))
  /\ (line = txt "0x0010 line=12" ->
      get_stack (line_map sm) 11
      = [mkPosition (txt "Bar.java") 12; mkPosition (txt "Baz.java") 31] ->
      snd (symbolicate sm st line)
      = Return (Some (txt "0x0010 line=Bar.java:12, Baz.java:31"))).
Proof.
  intros Hc. rewrite (not_consumed _ _ _ Hc).
  split; [|split; [exact int_decimal|split; [|split; [|split]]]].
  - destruct (rewrite_spec sm line) as (line1 & H1 & Hrw).
    exists line1.
    split; [exact H1|]. split; [|split; [exact Hrw|split]].
    + intros Hnone. rewrite (re_sub_no_match _ _ _ Hnone) in H1. congruence.
    + intros a h d b Hh Hhex Hd Hdig ->.
      apply re_search_complete. now apply line_match_intro.
    + intros pre m post Hs.
      destruct (search_line_groups _ _ _ _ Hs)
        as (h & d & Hh & Hhex & Hd & Hdig & Hl & Ht & Hp & Hn).
      assert (Hne : m_text m <> []) by (rewrite Ht; discriminate).
      pose proof (re_sub_at_search _ (line_replacer sm) _ _ _ _ Hs Hne) as Hsub.
      assert (Hrepl : line_replacer sm m
                      = match int d with
                        | Some n => Some (txt "0x" ++ h ++ txt " line="
                                          ++ positions sm (n - 1))
                        | None => None
                        end).
      { unfold line_replacer. rewrite Hn. cbv beta iota.
        destruct (int d); [|reflexivity]. rewrite Hp. f_equal. list_eq. }
      rewrite Hrepl in Hsub.
      exists h, d. split; [exact Hl|]. split; [exact Ht|].
      split; [exact Hd|]. split; [exact Hdig|]. split.
      * intros Hlong. rewrite (int_long d Hlong) in Hsub.
        now rewrite Hrw, Hsub.
      * intros Hshort. destruct (int_digits d Hd Hdig Hshort) as [n Hint].
        exists n. split; [exact Hint|]. rewrite Hsub, Hint.
        destruct (sub_from LINE_REGEX (line_replacer sm) _ O post);
          [|reflexivity].
        simpl. f_equal. unfold positions. list_eq.
  - intros sep x y l. apply join_cons.
  - intros -> Hstack. cbv in Hstack |- *. now rewrite Hstack.
  - intros -> Hstack. cbv in Hstack |- *. now rewrite Hstack.
  - intros -> Hstack. cbv in Hstack |- *. now rewrite Hstack.
Qed.



(* ------------------------------------------------------------------ *)
(** ** The alternate-encoding state machine *)

Lemma section_checks_fields st line :
  let st' := section_checks st line in
  (current_class st' = current_class st /\
   current_method_id st' = current_method_id st /\
   last_line st' = last_line st)
  \/ (current_class st' = None /\ current_method_id st' = None /\
      last_line st' = None).
Proof.
  unfold section_checks.
  destruct (re_match CLS_CHUNK_HDR_REGEX line).
  - destruct (_ || _); simpl; auto.
  - destruct (re_match CLS_HDR_REGEX line); simpl; auto.
Qed.

Lemma iodi_block_keeps_class sm iodi st line :
  (current_method_id st <> None -> current_class st <> None) ->
  match iodi_block sm iodi st line with
  | Returned st' _ | Raised st' | Fall st' =>
      current_method_id st' <> None -> current_class st' <> None
  end.
Proof.
  intros Inv. unfold iodi_block.
  destruct (re_search METHOD_CLS_HDR_REGEX line) as [[[pre m] post]|].
  { destruct (group "class" m); simpl; auto. }
  destruct (current_class st) as [cls|] eqn:Hcls; [|now rewrite Hcls].
  assert (Hfin : forall st', current_class st' = Some cls ->
                 current_method_id st' <> None -> current_class st' <> None)
    by (intros st' -> _; discriminate).
  destruct (re_search METHOD_REGEX line) as [[[pre m] post]|].
  { destruct (group "method" m); [|now apply Hfin].
    destruct (collision_free iodi !! _); now apply Hfin. }
  destruct (current_method_id st) as [mid|]; [|now apply Hfin].
  destruct (re_search LINE_REGEX line) as [[[pre m] post]|]; [|now apply Hfin].
  unfold instruction_line.
  destruct (debug_line_map sm) as [dlm|]; [|now apply Hfin].
  destruct (group "lineno" m); [|now apply Hfin].
  destruct (find_line_number dlm mid _) as [t|]; [|now apply Hfin].
  destruct (t =? 0); [now apply Hfin|].
  destruct (bool_decide _); [now apply Hfin|].
  destruct (group "prefix" m); now apply Hfin.
Qed.

(** A method id is only ever held together with a class. *)
Lemma reachable_class sm st :
  reachable sm st -> current_method_id st <> None -> current_class st <> None.
Proof.
  induction 1 as [|st line Hr IH]; [simpl; auto|].
  unfold symbolicate. destruct (iodi_metadata sm) as [iodi|]; [|exact IH].
  pose proof (iodi_block_keeps_class sm iodi st line IH) as Hb.
  destruct (iodi_block sm iodi st line) as [st1 r|st1|st1]; simpl; auto.
  destruct (section_checks_fields st1 line) as [(-> & -> & _)|(_ & -> & _)];
    auto.
Qed.

Lemma annotation_block sm iodi dlm st cls mid line prefix lineno :
  debug_line_map sm = Some dlm ->
  current_class st = Some cls -> current_method_id st = Some mid ->
  annotation line = Some (prefix, lineno) ->
  iodi_block sm iodi st line
  = match find_line_number dlm mid lineno with
    | None => Fall st
    | Some t =>
        if t =? 0 then Fall st
        else if bool_decide (last_line st = Some t) then Returned st None
        else Returned (set_last_line st t) (Some (expansion sm prefix t))
    end.
Proof.
  intros Hdlm Hcls Hmid. unfold annotation, iodi_block.
  destruct (re_search METHOD_CLS_HDR_REGEX line); [discriminate|].
  rewrite Hcls. destruct (re_search METHOD_REGEX line); [discriminate|].
  rewrite Hmid. destruct (re_search LINE_REGEX line) as [[[pre m] post]|];
    [|discriminate].
  unfold instruction_line. rewrite Hdlm.
  destruct (group "prefix" m) as [p|]; [|discriminate].
  destruct (group "lineno" m) as [d|]; [|discriminate].
  intros [= -> ->]. reflexivity.
Qed.

(** The prefix of an annotation is the matched [0x<hex> line=] and its line
    number the digits that follow. *)
Lemma annotation_shape line prefix lineno :
  annotation line = Some (prefix, lineno) ->
  exists pre h post,
    h <> [] /\ forallb CharClass.hexlower h = true /\
    lineno <> [] /\ forallb CharClass.digit lineno = true /\
    prefix = txt "0x" ++ h ++ txt " line=" /\
    line = pre ++ prefix ++ lineno ++ post.
Proof.
  unfold annotation.
  destruct (re_search METHOD_CLS_HDR_REGEX line); [discriminate|].
  destruct (re_search METHOD_REGEX line); [discriminate|].
  destruct (re_search LINE_REGEX line) as [[[pre m] post]|] eqn:E;
    [|discriminate].
  destruct (search_line_groups _ _ _ _ E)
    as (h & d & Hh & Hhex & Hd & Hdig & Hl & _ & -> & ->).
  intros [= <- <-]. exists pre, h, post. repeat split; auto.
  rewrite Hl. list_eq.
Qed.

(** C2, as stated, fails for a pair whose true line was already the last
    one emitted: in method [a] the raw lines 0 and 1 both come from true
    line 7; after the annotation of raw line 0 was emitted, the next two
    annotation lines are consecutive, remap to the same true line, and the
    first of the two returns [None] like the second. *)
Lemma repeated_line_suppresses_first_of_pair :
  let sm := session_maps both_methods in
  let st := fst (run sm init [hdr0; name_a; instr "0000" "0"]) in
  let l1 := instr "0001" "1" in
  let l2 := instr "0002" "1" in
  iodi_metadata sm <> None /\
  st = fst (symbolicate sm
              (fst (symbolicate sm (fst (symbolicate sm init hdr0)) name_a))
              (instr "0000" "0")) /\
  current_method_id st = Some 1 /\
  annotation l1 = Some (txt "0x0001 line=", txt "1") /\
  annotation l2 = Some (txt "0x0002 line=", txt "1") /\
  session_lines 1 (txt "1") = Some 7 /\
  symbolicate sm st l1 = (st, Return None) /\
  symbolicate sm st l2 = (st, Return None).
Proof.
  cbv zeta. split; [discriminate|].
  repeat split; vm_compute; reflexivity.
Qed.

(** C2, amended. With the alternate encoding active, in a state the
    symbolicator can reach with [current_method_id] set: of two consecutive
    annotation lines that the debug line map sends to the same true line [t]
    (a line number, not 0), the first, when it does not itself repeat the
    last emitted line, is emitted as eight spaces, its [0x<hex> line=]
    prefix, the position stack of [t - 1] joined with [", "] in the
    resolver's order (two frames [f1], [f2] give [f1, f2]), and a newline;
    the second returns [None]; a following annotation line with another true
    line is emitted again. *)
Theorem duplicate_suppression sm iodi dlm st mid l1 p1 d1 l2 p2 d2 t :
  iodi_metadata sm = Some iodi -> debug_line_map sm = Some dlm ->
  reachable sm st -> current_method_id st = Some mid ->
  annotation l1 = Some (p1, d1) -> annotation l2 = Some (p2, d2) ->
  find_line_number dlm mid d1 = Some t ->
  find_line_number dlm mid d2 = Some t ->
  t <> 0 -> last_line st <> Some t ->
  let st1 := fst (symbolicate sm st l1) in
  let st2 := fst (symbolicate sm st1 l2) in
  (exists pre h post,
     p1 = txt "0x" ++ h ++ txt " line=" /\ l1 = pre ++ p1 ++ d1 ++ post) /\
  snd (symbolicate sm st l1)
  = Return (Some (txt "        " ++ p1
                  ++ join (txt ", ")
                       (map format_position (get_stack (line_map sm) (t - 1)))
                  ++ newline)) /\
  (forall f1 f2,
     get_stack (line_map sm) (t - 1) = [f1; f2] ->
     snd (symbolicate sm st l1)
     = Return (Some (txt "        " ++ p1 ++ format_position f1 ++ txt ", "
                     ++ format_position f2 ++ newline))) /\
  snd (symbolicate sm st1 l2) = Return None /\
  forall l3 p3 d3 t',
    annotation l3 = Some (p3, d3) ->
    find_line_number dlm mid d3 = Some t' -> t' <> 0 -> t' <> t ->
    snd (symbolicate sm st2 l3)
    = Return (Some (txt "        " ++ p3
                    ++ join (txt ", ")
                         (map format_position
                            (get_stack (line_map sm) (t' - 1)))
                    ++ newline)).
Proof.
  intros Hi Hdlm Hr Hmid Ha1 Ha2 Hf1 Hf2 Ht Hlast.
  assert (Hcls : exists cls, current_class st = Some cls).
  { pose proof (reachable_class sm st Hr) as H. rewrite Hmid in H.
    destruct (current_class st); [eauto|]. now destruct H. }
  destruct Hcls as [cls Hcls].
  assert (Hz : (t =? 0) = false) by (apply Z.eqb_neq; exact Ht).
  assert (E1 : symbolicate sm st l1
               = (set_last_line st t, Return (Some (expansion sm p1 t)))).
  { unfold symbolicate. rewrite Hi.
    rewrite (annotation_block sm iodi dlm st cls mid l1 p1 d1) by assumption.
    rewrite Hf1, Hz. rewrite bool_decide_eq_false_2 by exact Hlast.
    reflexivity. }
  assert (E2 : symbolicate sm (set_last_line st t) l2
               = (set_last_line st t, Return None)).
  { unfold symbolicate. rewrite Hi.
    rewrite (annotation_block sm iodi dlm _ cls mid l2 p2 d2) by assumption.
    rewrite Hf2, Hz. rewrite bool_decide_eq_true_2 by reflexivity.
    reflexivity. }
  cbv zeta. rewrite E1. cbn [fst snd]. rewrite E2. cbn [fst snd].
  split; [|split; [reflexivity|split; [|split; [reflexivity|]]]].
  - destruct (annotation_shape _ _ _ Ha1) as (pre & h & post & _ & _ & _ & _ & Hp & Hl).
    eauto.
  - intros f1 f2 Hstack. unfold expansion. rewrite Hstack. do 2 f_equal.
    list_eq.
  - intros l3 p3 d3 t' Ha3 Hf3 Ht' Hne.
    unfold symbolicate. rewrite Hi.
    rewrite (annotation_block sm iodi dlm _ cls mid l3 p3 d3) by assumption.
    rewrite Hf3. rewrite (proj2 (Z.eqb_neq t' 0) Ht').
    rewrite bool_decide_eq_false_2; [reflexivity|].
    simpl. congruence.
Qed.

(** *** Section boundaries *)

Lemma no_method_not_consumed sm st line :
  current_method_id st = None -> consumed sm st line = false.
Proof.
  intros Hmid. unfold consumed. destruct (iodi_metadata sm) as [iodi|]; [|auto].
  unfold iodi_block.
  destruct (re_search METHOD_CLS_HDR_REGEX line) as [[[pre m] post]|] eqn:E1.
  { now destruct (search_hdr_group _ _ _ _ E1) as [cls ->]. }
  destruct (current_class st) as [cls|]; [|auto].
  destruct (re_search METHOD_REGEX line) as [[[pre m] post]|] eqn:E2.
  { destruct (search_method_group _ _ _ _ E2) as [name ->].
    now destruct (collision_free iodi !! _). }
  now rewrite Hmid.
Qed.

Lemma no_method_stays sm st line :
  current_method_id st = None -> re_search METHOD_REGEX line = None ->
  current_method_id (fst (symbolicate sm st line)) = None.
Proof.
  intros Hmid Hm. unfold symbolicate.
  destruct (iodi_metadata sm) as [iodi|]; [|exact Hmid].
  assert (Hb : match iodi_block sm iodi st line with
               | Returned st' _ | Raised st' | Fall st' =>
                   current_method_id st' = None
               end).
  { unfold iodi_block.
    destruct (re_search METHOD_CLS_HDR_REGEX line) as [[[pre m] post]|].
    { now destruct (group "class" m). }
    destruct (current_class st) as [cls|]; [|exact Hmid].
    rewrite Hm, Hmid. exact Hmid. }
  destruct (iodi_block sm iodi st line) as [st1 r|st1|st1]; simpl; auto.
  destruct (section_checks_fields st1 line) as [(_ & -> & _)|(_ & -> & _)];
    auto.
Qed.

(** Without a method id every line gets the plain substitutions, until a
    method-name declaration is read. *)
Lemma no_method_run sm lines : forall st,
  current_method_id st = None ->
  Forall (fun l => re_search METHOD_REGEX l = None) lines ->
  snd (run sm st lines) = until_raise (map (fun l => rewrite sm l) lines).
Proof.
  induction lines as [|l ls IH]; intros st Hmid Hall; simpl; [reflexivity|].
  inversion Hall as [|? ? Hl Hls]; subst.
  pose proof (not_consumed sm st l (no_method_not_consumed sm st l Hmid)) as Ho.
  pose proof (no_method_stays sm st l Hmid Hl) as Hs.
  destruct (symbolicate sm st l) as [st1 o] eqn:E. simpl in Ho, Hs.
  subst o. destruct (rewrite sm l) as [|r]; [reflexivity|].
  specialize (IH st1 Hs Hls).
  destruct (run sm st1 ls) as [st2 os]. simpl in IH |- *.
  now rewrite IH.
Qed.

Lemma chunk_hdr_match c rest :
  CharClass.upper c = true ->
  re_match CLS_CHUNK_HDR_REGEX (txt "  " ++ c :: rest) <> None.
Proof.
  intros Hc. unfold re_match, match_at, CLS_CHUNK_HDR_REGEX.
  rewrite exec_lit_intro. simpl. rewrite Hc. discriminate.
Qed.

Lemma cls_hdr_match rest :
  re_match CLS_CHUNK_HDR_REGEX (txt "Class #" ++ rest) = None /\
  re_match CLS_HDR_REGEX (txt "Class #" ++ rest) <> None.
Proof.
  split; [reflexivity|].
  unfold re_match, match_at, CLS_HDR_REGEX.
  rewrite <- (app_nil_r (lit "Class #")), exec_lit_intro. discriminate.
Qed.

(** C6, as stated, fails where the line is itself consumed as an
    instruction annotation: [symbolicate] returns before the section checks.
    In method [a] the line ["  A 0x0 line=0"] matches the subsection header
    pattern and names no methods listing, and ["Class #1 0x0 line=0"] matches
    the class header pattern; after either the class and the method id are
    still set. *)
Lemma boundary_line_consumed_keeps_state :
  let sm := session_maps both_methods in
  let st := fst (run sm init [hdr0; name_a]) in
  let chunk := txt "  A 0x0 line=0" in
  let cls := txt "Class #1 0x0 line=0" in
  re_match CLS_CHUNK_HDR_REGEX chunk <> None /\
  contains (txt "Direct methods") chunk = false /\
  contains (txt "Virtual methods") chunk = false /\
  symbolicate sm st chunk
  = (mkState false (Some (txt "com/foo/Bar")) (Some 1) (Some 7),
     Return (Some (txt "        0x0 line=Bar.java:7" ++ newline))) /\
  re_match CLS_HDR_REGEX cls <> None /\
  symbolicate sm st cls
  = (mkState false (Some (txt "com/foo/Bar")) (Some 1) (Some 7),
     Return (Some (txt "        0x0 line=Bar.java:7" ++ newline))).
Proof.
  cbv zeta. repeat split; (discriminate || vm_compute; reflexivity).
Qed.

(** C6, amended. With the alternate encoding active, a line that is not
    itself consumed as an instruction annotation and that starts with two
    spaces and a capital without naming a [Direct methods] or
    [Virtual methods] listing, or that starts with [Class #], leaves
    [current_class], [current_method_id] and [last_line] unset; the lines
    after it get the plain substitutions, not the remap, until a method-name
    declaration is read or a substitution raises, which ends the run. *)
Theorem section_boundary_reset sm st line :
  iodi_metadata sm <> None -> consumed sm st line = false ->
  ((exists c rest, CharClass.upper c = true /\ line = txt "  " ++ c :: rest)
   /\ contains (txt "Direct methods") line = false
   /\ contains (txt "Virtual methods") line = false)
  \/ (exists rest, line = txt "Class #" ++ rest) ->
  let st' := fst (symbolicate sm st line) in
  current_class st' = None /\ current_method_id st' = None /\
  last_line st' = None /\
  forall lines,
    Forall (fun l => re_search METHOD_REGEX l = None) lines ->
    snd (run sm st' lines) = until_raise (map (fun l => rewrite sm l) lines).
Proof.
  intros Hi Hc Hline.
  assert (Hreset : exists st1, fst (symbolicate sm st line) = reset_state st1).
  { unfold consumed in Hc. unfold symbolicate.
    destruct (iodi_metadata sm) as [iodi|]; [|congruence].
    destruct (iodi_block sm iodi st line) as [st1 r|st1|st1]; try discriminate.
    cbn [fst]. unfold section_checks.
    destruct Hline as [((c & rest & Hup & ->) & Hd & Hv)|(rest & ->)].
    - pose proof (chunk_hdr_match c rest Hup) as Hm.
      destruct (re_match CLS_CHUNK_HDR_REGEX _); [|congruence].
      rewrite Hd, Hv. simpl. eauto.
    - destruct (cls_hdr_match rest) as [-> Hm].
      destruct (re_match CLS_HDR_REGEX _); [|congruence]. eauto. }
  destruct Hreset as [st1 Hst]. cbv zeta. rewrite Hst.
  repeat split. intros lines Hall. now apply no_method_run.
Qed.

(** *** Two methods in one listing *)

(** C1. A line that matches [METHOD_CLS_HDR_REGEX] has the class recorded
    and nothing cleared: the alternate-encoding block only assigns
    [current_class].  At a failing input: after the first instruction of
    method [a] (true line 7) the header of method [b] is read; the call
    leaves [current_method_id] and [last_line] as they were, and the first
    instruction line of [b], also from true line 7, is then suppressed. *)
Theorem method_header_keeps_method_state :
  (forall sm iodi st line pre m post,
     re_search METHOD_CLS_HDR_REGEX line = Some (pre, m, post) ->
     exists cls,
       group "class" m = Some cls /\
       iodi_block sm iodi st line = Fall (set_current_class st cls)) /\
  let sm := session_maps both_methods in
  let st := fst (run sm init [hdr0; name_a; instr "0000" "0"]) in
  st = mkState false (Some (txt "com/foo/Bar")) (Some 1) (Some 7) /\
  (exists m, re_search METHOD_CLS_HDR_REGEX hdr1 = Some (txt "    ", m, [])
             /\ group "class" m = Some (txt "com/foo/Bar")) /\
  symbolicate sm st hdr1 = (st, Return (Some hdr1)) /\
  run sm init [hdr0; name_a; instr "0000" "0"; hdr1; name_b; instr "0000" "0"]
  = (mkState false (Some (txt "com/foo/Bar")) (Some 2) (Some 7),
     [Return (Some hdr0); Return (Some name_a);
      Return (Some (txt "        0x0000 line=Bar.java:7" ++ newline));
      Return (Some hdr1); Return (Some name_b);
      Return None]).
Proof.
  split.
  - intros sm iodi st line pre m post Hs.
    destruct (search_hdr_group _ _ _ _ Hs) as [cls Hg]. exists cls.
    split; [exact Hg|]. unfold iodi_block. now rewrite Hs, Hg.
  - cbv zeta. split; [vm_compute; reflexivity|]. split.
    + eexists. split; vm_compute; reflexivity.
    + split; vm_compute; reflexivity.
Qed.

(** C3. A method-name declaration whose qualified name is absent from the
    collision-free map leaves the state as it is, a method id held from
    before included.  At a failing input: method [b] is absent and its dump
    follows that of method [a] in the same listing.  The id of [a] is still
    current: the first instruction line of [b] is suppressed and the second
    is remapped (raw line 2 to true line 8 of [a]), where the plain
    substitution would give [Bar.java:2]. *)
Theorem unresolved_method_uses_stale_id :
  (forall sm iodi st line cls pre m post name,
     re_search METHOD_CLS_HDR_REGEX line = None ->
     current_class st = Some cls ->
     re_search METHOD_REGEX line = Some (pre, m, post) ->
     group "method" m = Some name ->
     collision_free iodi !! (replace "/" "." cls ++ txt "." ++ name) = None ->
     iodi_block sm iodi st line = Fall st) /\
  let sm := session_maps only_method_a in
  only_method_a !! (replace "/" "." (txt "com/foo/Bar") ++ txt "." ++ txt "b")
  = None /\
  run sm init [hdr0; name_a; instr "0000" "0"; hdr1; name_b;
               instr "0000" "0"; instr "0001" "2"]
  = (mkState false (Some (txt "com/foo/Bar")) (Some 1) (Some 8),
     [Return (Some hdr0); Return (Some name_a);
      Return (Some (txt "        0x0000 line=Bar.java:7" ++ newline));
      Return (Some hdr1); Return (Some name_b);
      Return None;
      Return (Some (txt "        0x0001 line=Bar.java:8" ++ newline))]) /\
  rewrite sm (instr "0000" "0")
  = Return (Some (txt "        0x0000 line=Bar.java:0")) /\
  rewrite sm (instr "0001" "2")
  = Return (Some (txt "        0x0001 line=Bar.java:2")).
Proof.
  split.
  - intros sm iodi st line cls pre m post name Hh Hc Hs Hg Hfree.
    unfold iodi_block. rewrite Hh, Hc, Hs, Hg. cbv zeta. now rewrite Hfree.
  - cbv zeta. repeat split; vm_compute; reflexivity.
Qed.

(* ------------------------------------------------------------------ *)
(** ** The theorems at concrete inputs *)



Lemma symbolicate_identity_on_plain_lines_witness :
  let line := txt "  Static fields     -" in
  re_search CLASS_REGEX line = None /\
  re_search LINE_REGEX line = None /\
  snd (symbolicate (session_maps both_methods) init line) = Return (Some line).
Proof.
  cbv zeta. split; [reflexivity|]. split; [reflexivity|].
  apply symbolicate_identity_on_plain_lines; reflexivity.
Defined.

Lemma line_annotation_rewrite_witness :
  (consumed foo_maps init (txt "0x0010 line=5") = false /\
   consumed inlined_maps init (txt "0x0010 line=12") = false) /\
  snd (symbolicate foo_maps init (txt "0x0010 line=5"))
  = Return (Some (txt "0x0010 line=Foo.java:10")) /\
  snd (symbolicate inlined_maps init (txt "0x0010 line=12"))
  = Return (Some (txt "0x0010 line=Bar.java:12, Baz.java:31")).
Proof.
  split; [split; reflexivity|]. split.
  - destruct (line_annotation_rewrite foo_maps init (txt "0x0010 line=5")
                eq_refl) as (_ & _ & _ & H & _).
    exact (H eq_refl eq_refl).
  - destruct (line_annotation_rewrite inlined_maps init
                (txt "0x0010 line=12") eq_refl) as (_ & _ & _ & _ & _ & H).
    exact (H eq_refl eq_refl).
Defined.


Lemma duplicate_suppression_witness :
  let sm := inlined_session_maps both_methods in
  let st := fst (symbolicate sm (fst (symbolicate sm init hdr0)) name_a) in
  let l1 := instr "0000" "0" in
  let l2 := instr "0001" "1" in
  let l3 := instr "0002" "2" in
  (reachable sm st /\ current_method_id st = Some 1 /\
   annotation l1 = Some (txt "0x0000 line=", txt "0") /\
   annotation l2 = Some (txt "0x0001 line=", txt "1") /\
   annotation l3 = Some (txt "0x0002 line=", txt "2") /\
   session_lines 1 (txt "0") = Some 7 /\ session_lines 1 (txt "1") = Some 7 /\
   session_lines 1 (txt "2") = Some 8 /\ last_line st <> Some 7) /\
  snd (symbolicate sm st l1)
  = Return (Some (txt "        0x0000 line=Bar.java:7, Baz.java:26"
                  ++ newline)) /\
  snd (symbolicate sm (fst (symbolicate sm st l1)) l2) = Return None /\
  snd (symbolicate sm
         (fst (symbolicate sm (fst (symbolicate sm st l1)) l2)) l3)
  = Return (Some (txt "        0x0002 line=Bar.java:8, Baz.java:27"
                  ++ newline)).
Proof.
  cbv zeta.
  assert (Hr : reachable (inlined_session_maps both_methods)
                 (fst (symbolicate (inlined_session_maps both_methods)
                         (fst (symbolicate (inlined_session_maps both_methods)
                                 init hdr0)) name_a)))
    by (apply reach_step, reach_step, reach_init).
  split.
  - split; [exact Hr|]. repeat split; try reflexivity. discriminate.
  - destruct (duplicate_suppression (inlined_session_maps both_methods)
                {| collision_free := both_methods |}
                {| find_line_number := session_lines |}
                _ 1 (instr "0000" "0") (txt "0x0000 line=") (txt "0")
                (instr "0001" "1") (txt "0x0001 line=") (txt "1") 7
                eq_refl eq_refl Hr eq_refl eq_refl eq_refl eq_refl eq_refl
                ltac:(discriminate) ltac:(discriminate))
      as (_ & _ & H1 & H2 & H3).
    split; [exact (H1 _ _ eq_refl)|]. split; [exact H2|].
    exact (H3 (instr "0002" "2") (txt "0x0002 line=") (txt "2") 8
             eq_refl eq_refl ltac:(discriminate) ltac:(discriminate)).
Defined.

Lemma section_boundary_reset_witness :
  let sm := session_maps both_methods in
  let st := fst (run sm init [hdr0; name_a; instr "0000" "0"]) in
  let line := txt "  Static fields     -" in
  (iodi_metadata sm <> None /\ consumed sm st line = false /\
   contains (txt "Direct methods") line = false /\
   contains (txt "Virtual methods") line = false) /\
  current_method_id st = Some 1 /\
  fst (symbolicate sm st line) = mkState false None None None /\
  snd (run sm (fst (symbolicate sm st line)) [instr "0001" "1"])
  = [Return (Some (txt "        0x0001 line=Bar.java:1"))].
Proof.
  cbv zeta. split; [|split; [reflexivity|]].
  - split; [discriminate|]. repeat split; reflexivity.
  - destruct (section_boundary_reset (session_maps both_methods)
                (fst (run (session_maps both_methods) init
                        [hdr0; name_a; instr "0000" "0"]))
                (txt "  Static fields     -")
                ltac:(discriminate) eq_refl
                (or_introl
                   (conj (ex_intro _ "S"%char
                            (ex_intro _ (txt "tatic fields     -")
                               (conj eq_refl eq_refl)))
                      (conj eq_refl eq_refl))))
      as (_ & _ & _ & Hrun).
    split; [reflexivity|].
    rewrite (Hrun [instr "0001" "1"]); [reflexivity|].
    repeat constructor.
Defined.

(* ------------------------------------------------------------------ *)
(** ** More on the state machine of [symbolicate] *)

Lemma iodi_block_tracking sm iodi st line :
  (last_line st <> None -> current_method_id st <> None) ->
  match iodi_block sm iodi st line with
  | Returned st' _ | Raised st' | Fall st' =>
      last_line st' <> None -> current_method_id st' <> None
  end.
Proof.
  intros Inv. unfold iodi_block.
  destruct (re_search METHOD_CLS_HDR_REGEX line) as [[[pre m] post]|].
  { destruct (group "class" m); simpl; auto. }
  destruct (current_class st) as [cls|]; [|exact Inv].
  destruct (re_search METHOD_REGEX line) as [[[pre m] post]|].
  { destruct (group "method" m); [|exact Inv].
    destruct (collision_free iodi !! _); [simpl; discriminate|exact Inv]. }
  destruct (current_method_id st) as [mid|] eqn:Hmid; [|now rewrite Hmid].
  destruct (re_search LINE_REGEX line) as [[[pre m] post]|];
    [|rewrite Hmid; discriminate].
  unfold instruction_line.
  destruct (debug_line_map sm) as [dlm|]; [|rewrite Hmid; discriminate].
  destruct (group "lineno" m); [|rewrite Hmid; discriminate].
  destruct (find_line_number dlm mid _) as [t|]; [|rewrite Hmid; discriminate].
  destruct (t =? 0); [rewrite Hmid; discriminate|].
  destruct (bool_decide _); [rewrite Hmid; discriminate|].
  destruct (group "prefix" m); simpl; rewrite Hmid; discriminate.
Qed.

(** X1. In every state the symbolicator can reach, a last emitted line is
    only held together with a method id and a method id only together with a
    class; without IODI metadata the state never leaves the initial one. *)
Theorem tracking_invariant sm st :
  reachable sm st ->
  (last_line st <> None -> current_method_id st <> None) /\
  (current_method_id st <> None -> current_class st <> None) /\
  (iodi_metadata sm = None -> st = init).
Proof.
  induction 1 as [|st line Hr (IH1 & IH2 & IH3)].
  - repeat split; simpl; congruence.
  - unfold symbolicate. destruct (iodi_metadata sm) as [iodi|] eqn:Hi.
    + pose proof (iodi_block_tracking sm iodi st line IH1) as H1.
      pose proof (iodi_block_keeps_class sm iodi st line IH2) as H2.
      destruct (iodi_block sm iodi st line) as [st1 r|st1|st1]; simpl;
        try (repeat split; auto; discriminate).
      destruct (section_checks_fields st1 line)
        as [(-> & -> & ->)|(-> & -> & ->)];
        repeat split; auto; discriminate.
    + simpl. auto.
Qed.

Lemma iodi_block_flag sm iodi st b line :
  iodi_block sm iodi (set_reading_methods st b) line
  = flow_map (fun s => set_reading_methods s b) (iodi_block sm iodi st line).
Proof.
  unfold iodi_block, instruction_line. simpl.
  destruct (re_search METHOD_CLS_HDR_REGEX line) as [[[pre m] post]|].
  { now destruct (group "class" m). }
  destruct (current_class st) as [cls|]; [|reflexivity].
  destruct (re_search METHOD_REGEX line) as [[[pre m] post]|].
  { destruct (group "method" m); [|reflexivity].
    now destruct (collision_free iodi !! _). }
  destruct (current_method_id st) as [mid|]; [|reflexivity].
  destruct (re_search LINE_REGEX line) as [[[pre m] post]|]; [|reflexivity].
  destruct (debug_line_map sm) as [dlm|]; [|reflexivity].
  destruct (group "lineno" m); [|reflexivity].
  destruct (find_line_number dlm mid _) as [t|]; [|reflexivity].
  destruct (t =? 0); [reflexivity|].
  destruct (bool_decide _); [reflexivity|].
  now destruct (group "prefix" m).
Qed.

Lemma same_tracking_flag st1 st2 :
  same_tracking st1 st2 ->
  st1 = set_reading_methods st2 (reading_methods st1).
Proof.
  destruct st1, st2. unfold same_tracking. simpl. intros (-> & -> & ->).
  reflexivity.
Qed.

Lemma section_checks_flag st b line :
  same_tracking (section_checks (set_reading_methods st b) line)
    (section_checks st line).
Proof.
  unfold section_checks, same_tracking.
  destruct (re_match CLS_CHUNK_HDR_REGEX line).
  - destruct (_ || _); simpl; auto.
  - destruct (re_match CLS_HDR_REGEX line); simpl; auto.
Qed.

Lemma symbolicate_same_tracking sm st1 st2 line :
  same_tracking st1 st2 ->
  snd (symbolicate sm st1 line) = snd (symbolicate sm st2 line) /\
  same_tracking (fst (symbolicate sm st1 line)) (fst (symbolicate sm st2 line)).
Proof.
  intros Hs. pose proof (same_tracking_flag _ _ Hs) as Hf.
  unfold symbolicate. destruct (iodi_metadata sm) as [iodi|]; [|auto].
  rewrite Hf, iodi_block_flag.
  destruct (iodi_block sm iodi st2 line) as [st r|st|st]; simpl.
  - split; [reflexivity|]. unfold same_tracking. simpl. auto.
  - split; [reflexivity|]. unfold same_tracking. simpl. auto.
  - split; [reflexivity|]. apply section_checks_flag.
Qed.

(** X2. The flag [reading_methods] is written and never read: two
    symbolicators that agree on class, method id and last line produce the
    same outcomes on every sequence of lines, whatever their flags. *)
Theorem reading_methods_never_read sm lines : forall st1 st2,
  same_tracking st1 st2 ->
  snd (run sm st1 lines) = snd (run sm st2 lines).
Proof.
  induction lines as [|l ls IH]; intros st1 st2 Hs; simpl; [reflexivity|].
  destruct (symbolicate_same_tracking sm st1 st2 l Hs) as [Ho Ht].
  destruct (symbolicate sm st1 l) as [s1 o1].
  destruct (symbolicate sm st2 l) as [s2 o2]. simpl in Ho, Ht. subst o2.
  destruct o1 as [|r]; [reflexivity|].
  specialize (IH s1 s2 Ht).
  destruct (run sm s1 ls) as [a1 b1]. destruct (run sm s2 ls) as [a2 b2].
  simpl in IH |- *. now rewrite IH.
Qed.

(** X3. [symbolicate] returns [None] exactly for an annotation line, read
    with a class and a method id set, whose true line (not 0) is the last
    line emitted; the state is then left as it was. *)
Theorem suppression_exactly sm st line :
  (snd (symbolicate sm st line) = Return None <->
   exists iodi dlm cls mid prefix lineno t,
     iodi_metadata sm = Some iodi /\ debug_line_map sm = Some dlm /\
     current_class st = Some cls /\ current_method_id st = Some mid /\
     annotation line = Some (prefix, lineno) /\
     find_line_number dlm mid lineno = Some t /\ t <> 0 /\
     last_line st = Some t)
  /\ (snd (symbolicate sm st line) = Return None ->
      fst (symbolicate sm st line) = st).
Proof.
  assert (Hback : forall iodi dlm cls mid prefix lineno t,
     iodi_metadata sm = Some iodi -> debug_line_map sm = Some dlm ->
     current_class st = Some cls -> current_method_id st = Some mid ->
     annotation line = Some (prefix, lineno) ->
     find_line_number dlm mid lineno = Some t -> t <> 0 ->
     last_line st = Some t ->
     symbolicate sm st line = (st, Return None)).
  { intros iodi dlm cls mid p d t Hi Hd Hcls Hmid Ha Hf Ht Hl.
    unfold symbolicate. rewrite Hi.
    rewrite (annotation_block sm iodi dlm st cls mid line p d) by assumption.
    rewrite Hf, (proj2 (Z.eqb_neq t 0) Ht).
    now rewrite bool_decide_eq_true_2 by exact Hl. }
  assert (Hforth : snd (symbolicate sm st line) = Return None ->
     exists iodi dlm cls mid prefix lineno t,
       iodi_metadata sm = Some iodi /\ debug_line_map sm = Some dlm /\
       current_class st = Some cls /\ current_method_id st = Some mid /\
       annotation line = Some (prefix, lineno) /\
       find_line_number dlm mid lineno = Some t /\ t <> 0 /\
       last_line st = Some t).
  { unfold symbolicate.
    pose proof (rewrite_not_none sm line) as Hrw.
    destruct (iodi_metadata sm) as [iodi|] eqn:Hi;
      [|simpl; intros Hx; now destruct (Hrw Hx)].
    unfold iodi_block, annotation.
    destruct (re_search METHOD_CLS_HDR_REGEX line) as [[[pre m] post]|].
    { destruct (group "class" m); simpl; try discriminate;
        intros Hx; now destruct (Hrw Hx). }
    destruct (current_class st) as [cls|] eqn:Hcls;
      [|simpl; intros Hx; now destruct (Hrw Hx)].
    destruct (re_search METHOD_REGEX line) as [[[pre m] post]|].
    { destruct (group "method" m); [|discriminate].
      destruct (collision_free iodi !! _); simpl;
        intros Hx; now destruct (Hrw Hx). }
    destruct (current_method_id st) as [mid|] eqn:Hmid;
      [|simpl; intros Hx; now destruct (Hrw Hx)].
    destruct (re_search LINE_REGEX line) as [[[pre m] post]|] eqn:E;
      [|simpl; intros Hx; now destruct (Hrw Hx)].
    destruct (search_line_groups _ _ _ _ E)
      as (h & d & _ & _ & _ & _ & _ & _ & Hp & Hl).
    unfold instruction_line. rewrite Hl, Hp.
    destruct (debug_line_map sm) as [dlm|] eqn:Hd; [|discriminate].
    destruct (find_line_number dlm mid d) as [t|] eqn:Hf;
      [|simpl; intros Hx; now destruct (Hrw Hx)].
    destruct (t =? 0) eqn:Hz; [simpl; intros Hx; now destruct (Hrw Hx)|].
    destruct (bool_decide (last_line st = Some t)) eqn:Hb; [|discriminate].
    intros _. exists iodi, dlm, cls, mid, (txt "0x" ++ h ++ txt " line="), d, t.
    apply bool_decide_eq_true in Hb. apply Z.eqb_neq in Hz.
    repeat split; auto. }
  split; [split; [exact Hforth|]|].
  - intros (iodi & dlm & cls & mid & p & d & t & Hi & Hd & Hc & Hm & Ha & Hf
            & Ht & Hl).
    now rewrite (Hback iodi dlm cls mid p d t).
  - intros (iodi & dlm & cls & mid & p & d & t & Hi & Hd & Hc & Hm & Ha & Hf
            & Ht & Hl)%Hforth.
    now rewrite (Hback iodi dlm cls mid p d t).
Qed.

(** X4. With the alternate encoding active, a line that none of the five
    state patterns matches (the two headers, the annotation, the two section
    patterns) leaves the state exactly as it was. *)
Theorem unmatched_line_keeps_state sm st line :
  re_search METHOD_CLS_HDR_REGEX line = None ->
  re_search METHOD_REGEX line = None ->
  re_search LINE_REGEX line = None ->
  re_match CLS_CHUNK_HDR_REGEX line = None ->
  re_match CLS_HDR_REGEX line = None ->
  fst (symbolicate sm st line) = st.
Proof.
  intros H1 H2 H3 H4 H5. unfold symbolicate.
  destruct (iodi_metadata sm) as [iodi|]; [|reflexivity].
  unfold iodi_block. rewrite H1, H2, H3.
  assert (Hs : section_checks st line = st)
    by (unfold section_checks; now rewrite H4, H5).
  destruct (current_class st); [|exact Hs].
  destruct (current_method_id st); exact Hs.
Qed.

Lemma empty_table_stays sm iodi st line :
  iodi_metadata sm = Some iodi -> collision_free iodi = ∅ ->
  current_method_id st = None ->
  current_method_id (fst (symbolicate sm st line)) = None.
Proof.
  intros Hi He Hmid. unfold symbolicate. rewrite Hi.
  assert (Hb : match iodi_block sm iodi st line with
               | Returned st' _ | Raised st' | Fall st' =>
                   current_method_id st' = None
               end).
  { unfold iodi_block.
    destruct (re_search METHOD_CLS_HDR_REGEX line) as [[[pre m] post]|].
    { now destruct (group "class" m). }
    destruct (current_class st) as [cls|]; [|exact Hmid].
    destruct (re_search METHOD_REGEX line) as [[[pre m] post]|].
    { destruct (group "method" m); [|exact Hmid].
      rewrite He, lookup_empty. exact Hmid. }
    rewrite Hmid. exact Hmid. }
  destruct (iodi_block sm iodi st line) as [st1 r|st1|st1]; simpl; auto.
  destruct (section_checks_fields st1 line) as [(_ & -> & _)|(_ & -> & _)];
    auto.
Qed.

(** X5. IODI metadata whose collision-free map is empty changes nothing:
    from the initial state every line of every input gets the plain
    substitutions, none is suppressed or remapped; the run ends where a
    substitution raises. *)
Theorem empty_table_plain sm iodi lines :
  iodi_metadata sm = Some iodi -> collision_free iodi = ∅ ->
  snd (run sm init lines) = until_raise (map (fun l => rewrite sm l) lines).
Proof.
  intros Hi He.
  assert (H : forall st, current_method_id st = None ->
            snd (run sm st lines)
            = until_raise (map (fun l => rewrite sm l) lines)).
  { induction lines as [|l ls IH]; intros st Hmid; simpl; [reflexivity|].
    pose proof (not_consumed sm st l (no_method_not_consumed sm st l Hmid))
      as Ho.
    pose proof (empty_table_stays sm iodi st l Hi He Hmid) as Hs.
    destruct (symbolicate sm st l) as [st1 o] eqn:E. simpl in Ho, Hs.
    subst o. destruct (rewrite sm l) as [|r]; [reflexivity|].
    specialize (IH st1 Hs).
    destruct (run sm st1 ls) as [st2 os]. simpl in IH |- *.
    now rewrite IH. }
  now apply H.
Qed.

(** A substitution that replaces every match by its own text changes
    nothing. *)
Lemma sub_from_same_text r repl :
  (forall prev s m rest,
     match_at r prev s = Some (m, rest) -> repl m = Some (m_text m)) ->
  forall n s prev, (length s <= n)%nat -> sub_from r repl prev O s = Some s.
Proof.
  intros Hrepl. induction n as [|n IH]; intros s prev Hlen.
  - destruct s; [|simpl in Hlen; lia]. simpl.
    destruct (match_at r prev []) as [[m rest]|] eqn:E; [|reflexivity].
    rewrite (Hrepl _ _ _ _ E). apply match_at_text in E.
    symmetry in E. apply app_eq_nil in E as [-> _]. reflexivity.
  - destruct (match_at r prev s) as [[m rest]|] eqn:E.
    + pose proof (match_at_text _ _ _ _ _ E) as Hs.
      destruct (m_text m) as [|c t] eqn:Ht.
      * destruct s as [|c s'].
        { simpl. rewrite E, (Hrepl _ _ _ _ E), Ht. reflexivity. }
        simpl. rewrite E, (Hrepl _ _ _ _ E), Ht. simpl.
        rewrite IH by (simpl in Hlen; lia). reflexivity.
      * subst s. rewrite <- Ht in E |- *.
        rewrite sub_from_at_match by (auto; rewrite Ht; discriminate).
        rewrite (Hrepl _ _ _ _ E).
        rewrite IH; [reflexivity|].
        rewrite length_app in Hlen. simpl in Hlen. lia.
    + destruct s as [|c s']; simpl; rewrite E; [reflexivity|].
      rewrite IH by (simpl in Hlen; lia). reflexivity.
Qed.

(** X6. When no class name that [CLASS_REGEX] can match is a key of the
    class map (an empty map, for one), the class substitution leaves every
    line unchanged, all its descriptors included, and [symbolicate] without
    IODI metadata ends as the line substitution does on the line itself:
    with only its annotations rewritten, or raising as that one does. *)
Theorem class_sub_identity_without_keys sm st line :
  (forall cls, class_name CharClass.ident cls ->
               class_map sm !! replace "/" "." cls = None) ->
  re_sub CLASS_REGEX (class_replacer sm) line = Some line /\
  (iodi_metadata sm = None ->
   symbolicate sm st line
   = (st, returned (re_sub LINE_REGEX (line_replacer sm) line))).
Proof.
  intros Hkeys.
  assert (Hid : re_sub CLASS_REGEX (class_replacer sm) line = Some line).
  { apply (sub_from_same_text _ _) with (n := length line); [|lia].
    intros prev s m rest (cls & Hcls & _ & _ & ->)%class_match_shape.
    unfold class_replacer, group. simpl assoc. cbv beta iota zeta.
    now rewrite (Hkeys cls Hcls). }
  split; [exact Hid|]. intros Hi.
  destruct (rewrite_spec sm line) as (line1 & H1 & Hrw).
  rewrite Hid in H1. injection H1 as <-.
  unfold symbolicate. now rewrite Hi, Hrw.
Qed.

(* ------------------------------------------------------------------ *)
(** ** The class map read from the mapping file *)

Lemma starts_with_app sep : forall x y,
  starts_with sep x = true -> starts_with sep (x ++ y) = true.
Proof.
  induction sep as [|a sep IH]; intros x y; simpl; [reflexivity|].
  destruct x as [|b x]; [discriminate|]. simpl.
  intros [-> H]%andb_prop. simpl. now apply IH.
Qed.

Lemma starts_with_self sep y : starts_with sep (sep ++ y) = true.
Proof.
  induction sep as [|a sep IH]; simpl; [reflexivity|].
  now rewrite Ascii.eqb_refl.
Qed.

Lemma starts_with_split sep : forall s,
  starts_with sep s = true -> s = sep ++ skipn (length sep) s.
Proof.
  induction sep as [|a sep IH]; intros s; simpl; [reflexivity|].
  destruct s as [|b s]; [discriminate|].
  intros [->%Ascii.eqb_eq H]%andb_prop. simpl. f_equal. now apply IH.
Qed.

Lemma contains_nil sep : sep <> [] -> contains sep [] = false.
Proof. destruct sep; [congruence|reflexivity]. Qed.

Lemma contains_occurrence sep : forall b a, contains sep (b ++ sep ++ a) = true.
Proof.
  induction b as [|c b IH]; intros a.
  - simpl app. destruct (sep ++ a) eqn:E; simpl;
      rewrite <- E, starts_with_self; reflexivity.
  - simpl. rewrite IH. apply orb_true_r.
Qed.

(** [partition] cuts at the first occurrence of the separator. *)
Lemma partition_found sep : sep <> [] -> forall s,
  contains sep s = true ->
  exists before after,
    partition sep s = (before, sep, after) /\
    s = before ++ sep ++ after /\ contains sep before = false.
Proof.
  intros Hsep. induction s as [|c s IH]; intros Hc.
  - rewrite contains_nil in Hc by exact Hsep. discriminate.
  - simpl partition. destruct (starts_with sep (c :: s)) eqn:Hs.
    + exists [], (skipn (length sep) (c :: s)). split; [reflexivity|].
      split; [now apply starts_with_split|now apply contains_nil].
    + simpl in Hc. rewrite Hs in Hc. simpl in Hc.
      destruct (IH Hc) as (b & a & Hp & -> & Hb).
      exists (c :: b), a. rewrite Hp. split; [reflexivity|].
      split; [reflexivity|]. simpl. rewrite Hb, orb_false_r.
      destruct (starts_with sep (c :: b)) eqn:Hsb; [|reflexivity].
      apply (starts_with_app sep (c :: b) (sep ++ a)) in Hsb.
      simpl in Hsb. congruence.
Qed.

Lemma partition_cons sep c s :
  partition sep (c :: s)
  = if starts_with sep (c :: s) then ([], sep, skipn (length sep) (c :: s))
    else let '(before, found, after) := partition sep s in
         (c :: before, found, after).
Proof. reflexivity. Qed.

(** A text without blanks before the arrow is the part [partition] returns
    first. *)
Lemma partition_arrow : forall b a,
  forallb (fun c => negb (Ascii.eqb c " ")) b = true ->
  partition (txt " -> ") (b ++ txt " -> " ++ a) = (b, txt " -> ", a).
Proof.
  induction b as [|c b IH]; intros a Hb.
  - reflexivity.
  - simpl in Hb. apply andb_prop in Hb as [Hc Hb].
    change ((c :: b) ++ txt " -> " ++ a) with (c :: (b ++ txt " -> " ++ a)).
    rewrite partition_cons, (IH a Hb).
    assert (Hs : starts_with (txt " -> ") (c :: b ++ txt " -> " ++ a) = false).
    { apply negb_true_iff in Hc. rewrite Ascii.eqb_sym in Hc.
      change (txt " -> ") with (" "%char :: txt "-> ") at 1.
      cbn [starts_with]. now rewrite Hc. }
    now rewrite Hs.
Qed.

Lemma class_map_line_spec mapping line :
  class_map_line mapping line
  = Some (if top_level_entry line
          then <[entry_key line := entry_value line]> mapping
          else mapping).
Proof.
  unfold class_map_line, top_level_entry, entry_key, entry_value.
  destruct (contains (txt " -> ") line) eqn:Hc; [|reflexivity].
  destruct line as [|c l]; [discriminate|]. simpl andb.
  destruct (negb (Ascii.eqb c " ")); [|reflexivity].
  now destruct (partition (txt " -> ") (c :: l)) as [[a b] d].
Qed.

Lemma class_map_lines_fold lines : forall mapping,
  class_map_lines mapping lines = Some (fold_left add_entry lines mapping).
Proof.
  induction lines as [|l ls IH]; intros mapping; simpl; [reflexivity|].
  rewrite class_map_line_spec. apply IH.
Qed.

Lemma fold_entries_sound (Q : str -> str -> Prop) lines : forall mapping,
  (forall k v, mapping !! k = Some v -> Q k v) ->
  (forall line, In line lines -> top_level_entry line = true ->
                Q (entry_key line) (entry_value line)) ->
  forall k v, fold_left add_entry lines mapping !! k = Some v -> Q k v.
Proof.
  induction lines as [|l ls IH]; intros mapping Hm Hl; simpl; [exact Hm|].
  apply IH.
  - intros k v. unfold add_entry.
    destruct (top_level_entry l) eqn:Ht; [|apply Hm].
    destruct (decide (entry_key l = k)) as [<-|Hne].
    + rewrite lookup_insert_eq. intros [= <-]. apply Hl; [now left|exact Ht].
    + rewrite lookup_insert_ne by exact Hne. apply Hm.
  - intros line Hin. apply Hl. now right.
Qed.

Lemma fold_entries_keep lines k : forall mapping,
  Forall (fun l => top_level_entry l = true -> entry_key l <> k) lines ->
  fold_left add_entry lines mapping !! k = mapping !! k.
Proof.
  induction lines as [|l ls IH]; intros mapping Hall; simpl; [reflexivity|].
  inversion Hall as [|? ? Hl Hls]; subst. rewrite IH by exact Hls.
  unfold add_entry. destruct (top_level_entry l); [|reflexivity].
  now rewrite lookup_insert_ne by auto.
Qed.

(** X7. [get_class_map] never raises, whatever the lines are (an empty line
    included: the arrow is looked for before the first character is read),
    and every entry of the map it returns comes from a line of the file that
    contains an arrow and does not start with a blank: the value is the text
    before the first arrow, without an arrow in it, and the key the text
    after it, stripped and without its last character. *)
Theorem get_class_map_entries lines :
  exists mapping,
    get_class_map lines = Some mapping /\
    forall k v,
      mapping !! k = Some v ->
      exists line after,
        In line lines /\ top_level_entry line = true /\
        line = v ++ txt " -> " ++ after /\
        contains (txt " -> ") v = false /\
        k = removelast (strip after).
Proof.
  unfold get_class_map. rewrite class_map_lines_fold. eexists.
  split; [reflexivity|].
  apply fold_entries_sound.
  - intros k v. rewrite lookup_empty. discriminate.
  - intros line Hin Ht. exists line.
    unfold top_level_entry in Ht. apply andb_prop in Ht as [Hc Hh].
    destruct (partition_found (txt " -> ") ltac:(discriminate) line Hc)
      as (b & a & Hp & Hl & Hb).
    exists a. unfold entry_key, entry_value. rewrite Hp. simpl.
    unfold top_level_entry. rewrite Hc, Hh. auto.
Qed.

(** X8. A line that starts with a blank (a member of a class in the mapping
    file) or holds no arrow contributes nothing: the map is the one read
    from the file without that line. *)
Theorem get_class_map_skips l1 line l2 :
  match line with c :: _ => c = " "%char | [] => True end
  \/ contains (txt " -> ") line = false ->
  get_class_map (l1 ++ line :: l2) = get_class_map (l1 ++ l2).
Proof.
  intros H. unfold get_class_map. rewrite !class_map_lines_fold.
  rewrite !fold_left_app. simpl. f_equal. f_equal. unfold add_entry.
  assert (Ht : top_level_entry line = false).
  { unfold top_level_entry. destruct H as [H|H]; [|now rewrite H].
    destruct line as [|c l]; [apply andb_false_r|]. subst c.
    apply andb_false_r. }
  now rewrite Ht.
Qed.

Lemma strip_entry_key new :
  match new with c :: _ => CharClass.space c = false | [] => True end ->
  removelast (strip (new ++ txt ":" ++ newline)) = new.
Proof.
  intros Hn. unfold strip.
  assert (Hl : lstrip (new ++ txt ":" ++ newline) = new ++ txt ":" ++ newline).
  { destruct new as [|c new]; [reflexivity|]. simpl. now rewrite Hn. }
  rewrite Hl, rev_app_distr. simpl. rewrite rev_involutive.
  apply removelast_last.
Qed.

(** The entry that a class line of the mapping file gives. *)
Lemma class_entry_parsed original new :
  original <> [] ->
  forallb (fun c => negb (Ascii.eqb c " ")) original = true ->
  match new with c :: _ => CharClass.space c = false | [] => True end ->
  top_level_entry (class_entry original new) = true /\
  entry_key (class_entry original new) = new /\
  entry_value (class_entry original new) = original.
Proof.
  intros Hne Ho Hn. unfold top_level_entry, entry_key, entry_value, class_entry.
  rewrite contains_occurrence, partition_arrow by exact Ho. simpl fst. simpl snd.
  rewrite strip_entry_key by exact Hn. split; [|auto].
  destruct original as [|c o]; [congruence|]. simpl in Ho |- *.
  now apply andb_prop in Ho as [-> _].
Qed.

Lemma get_class_map_lookup_aux l1 original new l2 :
  original <> [] ->
  forallb (fun c => negb (Ascii.eqb c " ")) original = true ->
  match new with c :: _ => CharClass.space c = false | [] => True end ->
  Forall (fun l => top_level_entry l = true -> entry_key l <> new) l2 ->
  exists mapping,
    get_class_map (l1 ++ class_entry original new :: l2) = Some mapping /\
    mapping !! new = Some original.
Proof.
  intros Hne Ho Hn Hl2.
  destruct (class_entry_parsed original new Hne Ho Hn) as (Ht & Hk & Hv).
  unfold get_class_map. rewrite class_map_lines_fold. eexists.
  split; [reflexivity|].
  rewrite fold_left_app. simpl. rewrite fold_entries_keep by exact Hl2.
  unfold add_entry at 1. rewrite Ht, Hk, Hv. apply lookup_insert_eq.
Qed.

(** X9. Writing and reading back a class entry: for a line
    [original -> new:] whose original name is not empty and has no blank
    and whose new name does not start with white space, the map read from
    the file sends [new] to [original], provided no later line of the file
    gives an entry with the same key (the last one wins). *)
Theorem get_class_map_lookup l1 original new l2 :
  original <> [] ->
  forallb (fun c => negb (Ascii.eqb c " ")) original = true ->
  match new with c :: _ => CharClass.space c = false | [] => True end ->
  Forall (fun l => top_level_entry l = true -> entry_key l <> new) l2 ->
  exists mapping,
    get_class_map (l1 ++ class_entry original new :: l2) = Some mapping /\
    mapping !! new = Some original.
Proof.
  intros Hne Ho Hn Hl2.
  destruct (class_entry_parsed original new Hne Ho Hn) as (Ht & Hk & Hv).
  unfold get_class_map. rewrite class_map_lines_fold.
  exists (fold_left add_entry (l1 ++ class_entry original new :: l2) ∅).
  split; [reflexivity|].
  rewrite fold_left_app. cbn [fold_left].
  rewrite (fold_entries_keep l2 new _ Hl2).
  unfold add_entry at 1. rewrite Ht, Hk, Hv. apply lookup_insert_eq.
Qed.

(* ------------------------------------------------------------------ *)
(** ** [LinesSymbolicator] *)

(** X10. [LinesSymbolicator.symbolicate] drops the last seven characters of
    the line, whatever they are, and looks the rest up with slashes turned
    into dots: a mapped name is returned with a newline, and otherwise the
    line comes back unchanged. *)
Theorem lines_symbolicate_entry sm stem tail :
  length tail = 7%nat ->
  LinesSymbolicator.symbolicate sm (stem ++ tail)
  = match class_map sm !! replace "/" "." stem with
    | Some original => original ++ newline
    | None => stem ++ tail
    end.
Proof.
  intros Ht. unfold LinesSymbolicator.symbolicate.
  rewrite length_app, Ht.
  replace (length stem + 7 - 7)%nat with (length stem) by lia.
  rewrite firstn_app, firstn_all, Nat.sub_diag. simpl firstn.
  now rewrite app_nil_r.
Qed.

(** X11. The edges of the seven-character cut: a line shorter than seven
    characters is looked up under the empty name, and a line that ends in
    [.class] without a newline is looked up without the last character of
    its name. *)
Theorem lines_symbolicate_edges sm :
  (forall line,
     (length line < 7)%nat ->
     LinesSymbolicator.symbolicate sm line
     = match class_map sm !! [] with
       | Some original => original ++ newline
       | None => line
       end)
  /\ (forall stem c,
        LinesSymbolicator.symbolicate sm (stem ++ [c] ++ txt ".class")
        = match class_map sm !! replace "/" "." stem with
          | Some original => original ++ newline
          | None => stem ++ [c] ++ txt ".class"
          end).
Proof.
  split.
  - intros line Hlen. unfold LinesSymbolicator.symbolicate.
    replace (length line - 7)%nat with 0%nat by lia. reflexivity.
  - intros stem c. unfold LinesSymbolicator.symbolicate.
    rewrite length_app. simpl length.
    replace (length stem + 7 - 7)%nat with (length stem) by lia.
    rewrite firstn_app, firstn_all, Nat.sub_diag. simpl firstn.
    now rewrite app_nil_r.
Qed.

(** X12. From the mapping file to the answer: when the class map of the
    tables is the one read from a file that holds the entry
    [original -> new:] (as in X9, with no later entry for [new]), the line
    [<new with slashes>.class] is symbolicated to [original] and a newline. *)
Theorem lines_symbolicate_from_file sm l1 original new l2 slashed :
  original <> [] ->
  forallb (fun c => negb (Ascii.eqb c " ")) original = true ->
  match new with c :: _ => CharClass.space c = false | [] => True end ->
  Forall (fun l => top_level_entry l = true -> entry_key l <> new) l2 ->
  get_class_map (l1 ++ class_entry original new :: l2) = Some (class_map sm) ->
  replace "/" "." slashed = new ->
  LinesSymbolicator.symbolicate sm (slashed ++ txt ".class" ++ newline)
  = original ++ newline.
Proof.
  intros Hne Ho Hn Hl2 Hmap Hs.
  destruct (get_class_map_lookup_aux l1 original new l2 Hne Ho Hn Hl2)
    as (mapping & Hm & Hlook).
  rewrite Hmap in Hm. injection Hm as <-.
  unfold LinesSymbolicator.symbolicate.
  rewrite length_app. simpl length.
  replace (length slashed + 7 - 7)%nat with (length slashed) by lia.
  rewrite firstn_app, firstn_all, Nat.sub_diag. simpl firstn.
  rewrite app_nil_r, Hs, Hlook. reflexivity.
Qed.

(* ------------------------------------------------------------------ *)
(** ** The tables as built, and the driver *)

(** With tables as [__init__] builds them, a call returns from the
    alternate-encoding block or ends as the two substitutions do. *)
Lemma symbolicate_outcome sm st line :
  maps_ok sm ->
  snd (symbolicate sm st line) = rewrite sm line \/
  exists r, snd (symbolicate sm st line) = Return r.
Proof.
  intros Hok. unfold symbolicate.
  destruct (iodi_metadata sm) as [iodi|] eqn:Hi; [|now left].
  assert (Hdlm : debug_line_map sm <> None) by (apply Hok; congruence).
  pose proof (iodi_block_no_raise sm iodi st line Hdlm) as Hnr.
  destruct (iodi_block sm iodi st line) as [st1 r|st1|st1].
  - right. eauto.
  - now destruct (Hnr st1).
  - now left.
Qed.

Lemma SymbolMaps_init_iodi_Done truthy cm lm dlm iodi_file sm :
  SymbolMaps_init_iodi truthy cm lm dlm iodi_file = Done sm ->
  class_map sm = cm /\ line_map sm = lm /\ debug_line_map sm = dlm /\
  iodi_file = option_map Some (iodi_metadata sm) /\ maps_ok sm.
Proof.
  unfold SymbolMaps_init_iodi, maps_ok.
  destruct iodi_file as [[iodi|]|].
  - destruct dlm as [d|]; simpl; [|discriminate].
    destruct (truthy d); simpl; [|discriminate].
    intros [= <-]. simpl. repeat split; auto; discriminate.
  - destruct (negb _); discriminate.
  - intros [= <-]. simpl. repeat split; auto.
Qed.

Lemma SymbolMaps_init_iodi_Exit truthy cm lm dlm iodi_file code :
  SymbolMaps_init_iodi truthy cm lm dlm iodi_file = Exit code <->
  code = 1 /\ iodi_file <> None /\
  forall d, dlm = Some d -> truthy d = false.
Proof.
  unfold SymbolMaps_init_iodi. destruct iodi_file as [built|].
  - destruct dlm as [d|]; simpl.
    + destruct (truthy d) eqn:Ht; simpl.
      * split; [destruct built; discriminate|].
        intros (_ & _ & H). specialize (H d eq_refl). congruence.
      * split; [intros [= <-]|intros (-> & _); reflexivity].
        repeat split; [discriminate|]. intros d' [= <-]. exact Ht.
    + split; [intros [= <-]|intros (-> & _); reflexivity].
      repeat split; discriminate.
  - split; [discriminate|]. intros (_ & H & _). congruence.
Qed.

(** X13. [SymbolMaps.__init__] in the order of its statements.  It exits,
    and then with status 1, exactly when the mapping file, the position map
    and the debug line map (if its file exists) were read, the IODI metadata
    file exists, and the debug line map is missing or false: the IODI
    metadata is not read before the test, so a broken IODI file does not
    matter then.  When it returns, the tables hold the class map read from
    the mapping file and the position map, hold IODI metadata exactly when
    its file exists, and never hold them without a debug line map; a call
    of [symbolicate] on these tables raises only where the line
    substitution does. *)
Theorem SymbolMaps_init_builds truthy symbol_files :
  (forall code,
     SymbolMaps_init truthy symbol_files = Exit code <->
     code = 1 /\
     SymbolFiles.extracted_symbols symbol_files <> None /\
     SymbolFiles.line_map symbol_files <> None /\
     SymbolFiles.debug_line_map symbol_files <> Some None /\
     SymbolFiles.iodi_metadata symbol_files <> None /\
     forall d, SymbolFiles.debug_line_map symbol_files = Some (Some d) ->
               truthy d = false) /\
  forall sm,
    SymbolMaps_init truthy symbol_files = Done sm ->
    (exists lines,
       SymbolFiles.extracted_symbols symbol_files = Some lines /\
       get_class_map lines = Some (class_map sm)) /\
    SymbolFiles.line_map symbol_files = Some (line_map sm) /\
    SymbolFiles.debug_line_map symbol_files
    = option_map Some (debug_line_map sm) /\
    SymbolFiles.iodi_metadata symbol_files
    = option_map Some (iodi_metadata sm) /\
    maps_ok sm /\
    forall st line,
      snd (symbolicate sm st line) = Raise ->
      exists line1,
        re_sub CLASS_REGEX (class_replacer sm) line = Some line1 /\
        re_sub LINE_REGEX (line_replacer sm) line1 = None.
Proof.
  assert (Hraise : forall sm, maps_ok sm -> forall st line,
            snd (symbolicate sm st line) = Raise ->
            exists line1,
              re_sub CLASS_REGEX (class_replacer sm) line = Some line1 /\
              re_sub LINE_REGEX (line_replacer sm) line1 = None).
  { intros sm Hok st line Hr.
    destruct (rewrite_spec sm line) as (line1 & E1 & Hrw).
    exists line1. split; [exact E1|].
    destruct (symbolicate_outcome sm st line Hok) as [H|[r H]];
      rewrite H in Hr; [|discriminate].
    rewrite Hrw in Hr.
    destruct (re_sub LINE_REGEX (line_replacer sm) line1);
      [discriminate|reflexivity]. }
  unfold SymbolMaps_init.
  destruct (SymbolFiles.extracted_symbols symbol_files) as [lines|].
  2:{ split; [|discriminate]. intros code.
      split; [discriminate|]. intros (_ & H & _). congruence. }
  unfold get_class_map at 1 2. rewrite class_map_lines_fold.
  destruct (SymbolFiles.line_map symbol_files) as [lm|].
  2:{ split; [|discriminate]. intros code.
      split; [discriminate|]. intros (_ & _ & H & _). congruence. }
  destruct (SymbolFiles.debug_line_map symbol_files) as [[d|]|].
  - split.
    + intros code. rewrite SymbolMaps_init_iodi_Exit. split.
      * intros (-> & Hi & Ht). repeat split; try discriminate; auto.
        intros d' [= <-]. now apply Ht.
      * intros (-> & _ & _ & _ & Hi & Ht). repeat split; auto.
        intros d' [= <-]. now apply Ht.
    + intros sm (Hc & Hl & Hd & Hi & Hok)%SymbolMaps_init_iodi_Done.
      split; [exists lines; split; [reflexivity|]|].
      { unfold get_class_map. rewrite class_map_lines_fold. now rewrite Hc. }
      rewrite Hl, Hd. split; [reflexivity|]. split; [reflexivity|].
      split; [exact Hi|]. split; [exact Hok|]. now apply Hraise.
  - split; [|discriminate]. intros code.
    split; [discriminate|]. intros (_ & _ & _ & H & _). congruence.
  - split.
    + intros code. rewrite SymbolMaps_init_iodi_Exit. split.
      * intros (-> & Hi & Ht). repeat split; try discriminate; auto.
      * intros (-> & _ & _ & _ & Hi & Ht). repeat split; auto. discriminate.
    + intros sm (Hc & Hl & Hd & Hi & Hok)%SymbolMaps_init_iodi_Done.
      split; [exists lines; split; [reflexivity|]|].
      { unfold get_class_map. rewrite class_map_lines_fold. now rewrite Hc. }
      rewrite Hl, Hd. split; [reflexivity|]. split; [reflexivity|].
      split; [exact Hi|]. split; [exact Hok|]. now apply Hraise.
Qed.

(** A line without class descriptor and annotation comes back unchanged. *)
Lemma plain_line_outcome sm st line :
  re_search CLASS_REGEX line = None ->
  re_search LINE_REGEX line = None ->
  snd (symbolicate sm st line) = Return (Some line).
Proof.
  intros Hc Hl.
  assert (Hrw : rewrite sm line = Return (Some line)).
  { unfold rewrite. rewrite (re_sub_no_match _ _ _ Hc).
    now rewrite (re_sub_no_match _ _ _ Hl). }
  unfold symbolicate. destruct (iodi_metadata sm) as [iodi|]; [|exact Hrw].
  unfold iodi_block.
  destruct (re_search METHOD_CLS_HDR_REGEX line) as [[[pre m] post]|] eqn:E1.
  { now destruct (search_hdr_group _ _ _ _ E1) as [cls ->]. }
  destruct (current_class st) as [cls|]; [|exact Hrw].
  destruct (re_search METHOD_REGEX line) as [[[pre m] post]|] eqn:E2.
  { destruct (search_method_group _ _ _ _ E2) as [name ->].
    now destruct (collision_free iodi !! _). }
  destruct (current_method_id st) as [mid|]; [|exact Hrw].
  now rewrite Hl.
Qed.

Lemma skip_empty_concat input : concat (skip_empty input) = concat input.
Proof.
  induction input as [|l ls IH]; [reflexivity|].
  destruct l; [exact IH|reflexivity].
Qed.

Lemma skip_empty_Forall (P : str -> Prop) input :
  Forall P input -> Forall P (skip_empty input).
Proof.
  induction 1 as [|l ls Hl Hls IH]; [constructor|].
  destruct l; [exact IH|now constructor].
Qed.

Lemma written_returns outs :
  existsb (fun o => match o with Raise => true | _ => false end)
    (map (fun o : str => Return (Some o)) outs) = false /\
  written (map (fun o : str => Return (Some o)) outs) = concat outs.
Proof.
  induction outs as [|x xs [IH1 IH2]]; [split; reflexivity|].
  simpl. now rewrite IH1, IH2.
Qed.

(** X14. The driver with the dexdump symbolicator copies an input without
    class descriptors and annotations verbatim, with or without IODI
    metadata; with nothing to read it exits with status 0 and writes
    nothing. *)
Theorem main_dexdump_copies_plain_input sm input :
  Forall (fun l => re_search CLASS_REGEX l = None
                   /\ re_search LINE_REGEX l = None) input ->
  main_dexdump sm input
  = match skip_empty input with
    | [] => Exit 0
    | _ :: _ => Done (concat input)
    end.
Proof.
  intros Hall%skip_empty_Forall. unfold main_dexdump.
  rewrite <- (skip_empty_concat input).
  generalize dependent (skip_empty input). intros lines Hall.
  assert (H : forall st,
            snd (run sm st lines) = map (fun l => Return (Some l)) lines).
  { induction lines as [|l ls IH]; intros st; simpl; [reflexivity|].
    inversion Hall as [|? ? [Hc Hl] Hls]; subst.
    pose proof (plain_line_outcome sm st l Hc Hl) as Ho.
    destruct (symbolicate sm st l) as [st1 o]. simpl in Ho. subst o.
    specialize (IH Hls st1). destruct (run sm st1 ls) as [st2 os].
    simpl in IH |- *. now rewrite IH. }
  destruct lines as [|l ls]; [reflexivity|].
  rewrite H. destruct (written_returns (l :: ls)) as [-> ->]. reflexivity.
Qed.

Lemma run_without_iodi sm lines : forall st,
  iodi_metadata sm = None ->
  snd (run sm st lines) = until_raise (map (fun l => rewrite sm l) lines).
Proof.
  induction lines as [|l ls IH]; intros st Hi; simpl; [reflexivity|].
  unfold symbolicate at 1. rewrite Hi.
  destruct (rewrite sm l) as [|r]; [reflexivity|].
  specialize (IH st Hi). destruct (run sm st ls) as [st2 os].
  simpl in IH |- *. now rewrite IH.
Qed.

Lemma until_raise_returns outs :
  until_raise (map (fun o : str => Return (Some o)) outs)
  = map (fun o : str => Return (Some o)) outs.
Proof. induction outs as [|o outs IH]; simpl; [|rewrite IH]; reflexivity. Qed.

Lemma until_raise_raises (f : str -> outcome) lines :
  Exists (fun l => f l = Raise) lines ->
  existsb (fun o => match o with Raise => true | _ => false end)
    (until_raise (map f lines)) = true.
Proof.
  induction 1 as [l ls Hl|l ls Hls IH]; simpl.
  - now rewrite Hl.
  - destruct (f l); [reflexivity|exact IH].
Qed.

(** X15. Without IODI metadata the driver drops nothing: when no line makes
    the substitutions raise it writes, in order, one string for each line
    read, the line after the two substitutions; when one does, it ends with
    that exception. *)
Theorem main_dexdump_without_iodi sm input :
  iodi_metadata sm = None -> skip_empty input <> [] ->
  (Forall (fun l => rewrite sm l <> Raise) (skip_empty input) ->
   exists outs,
     Forall2 (fun l o => rewrite sm l = Return (Some o))
       (skip_empty input) outs /\
     main_dexdump sm input = Done (concat outs)) /\
  (Exists (fun l => rewrite sm l = Raise) (skip_empty input) ->
   main_dexdump sm input = Failed).
Proof.
  intros Hi Hne. unfold main_dexdump.
  destruct (skip_empty input) as [|l0 ls0]; [congruence|]. clear Hne.
  cbv beta iota zeta. rewrite (run_without_iodi sm (l0 :: ls0) init Hi).
  generalize (l0 :: ls0). intros lines. split.
  - intros Hall.
    assert (H : exists outs,
              Forall2 (fun l o => rewrite sm l = Return (Some o)) lines outs /\
              map (fun l => rewrite sm l) lines
              = map (fun o => Return (Some o)) outs).
    { induction Hall as [|l ls Hl Hls (outs & Hf & Hm)].
      - exists []. split; [constructor|reflexivity].
      - pose proof (rewrite_not_none sm l) as Hn.
        destruct (rewrite sm l) as [|[out|]] eqn:Hrw; try congruence.
        exists (out :: outs). split; [now constructor|].
        simpl. now rewrite Hrw, Hm. }
    destruct H as (outs & Hf & Hm). exists outs. split; [exact Hf|].
    rewrite Hm, until_raise_returns.
    destruct (written_returns outs) as [-> ->]. reflexivity.
  - intros Hex.
    now rewrite (until_raise_raises (fun l => rewrite sm l) _ Hex).
Qed.

(** X16. The choice of [main]: the dexdump symbolicator is used exactly
    when [--input-type] is neither [lines] nor [logcat], the logcat detector
    rejects the first line, and [--input-type] is [dexdump] or the first line
    is likely dexdump output.  So [--input-type dexdump] does not prevail
    over a first line that looks like logcat. *)
Theorem choose_dexdump is_likely_logcat input_type first_line :
  (choose is_likely_logcat input_type first_line = Dexdump <->
   input_type <> Some Lines /\ input_type <> Some Logcat /\
   is_likely_logcat first_line = false /\
   (input_type = Some Dexdump \/ is_likely_dexdump first_line = true))
  /\ (is_likely_logcat first_line = true ->
      choose is_likely_logcat (Some Dexdump) first_line = Logcat).
Proof.
  split.
  - unfold choose.
    destruct input_type as [[| |]|]; simpl;
      destruct (is_likely_logcat first_line); simpl;
      try destruct (is_likely_dexdump first_line); simpl;
      (split;
       [ try discriminate; intros _; repeat split; try discriminate; auto
       | intros (H1 & H2 & H3 & H4); try congruence;
         try (destruct H4; congruence) ]).
  - intros H. unfold choose. now rewrite H.
Qed.

(* ------------------------------------------------------------------ *)
(** ** From the mapping file to the rewritten descriptor *)

Lemma no_blank_no_annotation s :
  forallb (fun c => negb (Ascii.eqb c " ")) s = true ->
  forall a s' prev, s = a ++ s' -> match_at LINE_REGEX prev s' = None.
Proof.
  intros Hs a s' prev ->.
  destruct (match_at LINE_REGEX prev s') as [[m rest]|] eqn:E; [|reflexivity].
  apply line_match_shape in E as (h & d & _ & _ & _ & _ & -> & _).
  rewrite !forallb_app in Hs. simpl in Hs.
  repeat match type of Hs with
         | (_ && _ = true) => apply andb_prop in Hs as [_ Hs]
         end.
  discriminate.
Qed.

(** X17. From the mapping file to the rewritten descriptor: when the class
    map of the tables is the one read from a file that holds the entry
    [original -> new:] (original name not empty and without blank, new name
    not starting with white space, no later entry for [new]), and the line is
    not consumed by the alternate-encoding block, the descriptor of [new]
    standing alone on a line is rewritten to the descriptor of
    [original]. *)
Theorem descriptor_from_file sm st l1 original new l2 cls :
  original <> [] ->
  forallb (fun c => negb (Ascii.eqb c " ")) original = true ->
  match new with c :: _ => CharClass.space c = false | [] => True end ->
  Forall (fun l => top_level_entry l = true -> entry_key l <> new) l2 ->
  get_class_map (l1 ++ class_entry original new :: l2) = Some (class_map sm) ->
  class_name CharClass.ident cls -> replace "/" "." cls = new ->
  consumed sm st (txt "L" ++ cls ++ txt ";") = false ->
  snd (symbolicate sm st (txt "L" ++ cls ++ txt ";"))
  = Return (Some (txt "L" ++ replace "." "/" original ++ txt ";")).
Proof.
  intros Hne Ho Hn Hl2 Hmap Hcls Hdot Hcons.
  destruct (get_class_map_lookup_aux l1 original new l2 Hne Ho Hn Hl2)
    as (mapping & Hm & Hlook).
  rewrite Hmap in Hm. injection Hm as <-.
  rewrite (not_consumed _ _ _ Hcons). unfold rewrite.
  assert (Hmatch := class_match_intro None cls [] Hcls eq_refl).
  assert (H1 : re_sub CLASS_REGEX (class_replacer sm) (txt "L" ++ cls ++ txt ";")
               = Some (txt "L" ++ replace "." "/" original ++ txt ";")).
  { unfold re_sub.
    pose proof (sub_from_at_match CLASS_REGEX (class_replacer sm) None
                  (mkMatch (txt "L" ++ cls ++ txt ";") [("class"%string, cls)])
                  []) as Hsub.
    cbn [m_text] in Hsub. rewrite app_nil_r in Hsub.
    rewrite app_nil_r in Hmatch.
    rewrite Hsub; [|exact Hmatch|discriminate].
    unfold class_replacer, group. simpl assoc. cbv beta iota zeta.
    rewrite Hdot, Hlook.
    assert (Hend : forall prev,
              sub_from CLASS_REGEX (class_replacer sm) prev 0 [] = Some []).
    { intros prev. simpl sub_from.
      replace (match_at CLASS_REGEX prev []) with (@None (Match * str));
        [reflexivity|].
      unfold match_at, CLASS_REGEX. simpl. now destruct (is_word prev). }
    rewrite Hend. simpl. f_equal. f_equal. list_eq. }
  rewrite H1. unfold re_sub.
  rewrite (sub_from_no_match LINE_REGEX (line_replacer sm)); [reflexivity|].
  intros a s' Hs. eapply no_blank_no_annotation; [|exact Hs].
  simpl. rewrite forallb_app. simpl. rewrite andb_true_r.
  unfold replace. rewrite forallb_forall. intros x Hx.
  apply in_map_iff in Hx as (y & <- & Hy).
  rewrite forallb_forall in Ho. specialize (Ho y Hy).
  destruct (Ascii.eqb y "."); [reflexivity|exact Ho].
Qed.


(* ------------------------------------------------------------------ *)
(** ** Lines the state machine passes on *)

(** X18. An annotation line whose raw line number has no entry in the debug
    line map, or the entry 0, is not remapped and not suppressed: it goes
    through the section checks and the plain substitutions, as a line read
    without method id would. *)
Theorem unmapped_annotation_falls_through
    sm iodi dlm st cls mid line prefix lineno :
  iodi_metadata sm = Some iodi -> debug_line_map sm = Some dlm ->
  current_class st = Some cls -> current_method_id st = Some mid ->
  annotation line = Some (prefix, lineno) ->
  find_line_number dlm mid lineno = None
  \/ find_line_number dlm mid lineno = Some 0 ->
  symbolicate sm st line = (section_checks st line, rewrite sm line).
Proof.
  intros Hi Hd Hc Hm Ha Hf. unfold symbolicate. rewrite Hi.
  rewrite (annotation_block sm iodi dlm st cls mid line prefix lineno)
    by assumption.
  now destruct Hf as [-> | ->].
Qed.

(** X19. The header of a methods listing does not reset: a line that starts
    with two blanks and a capital and contains [Direct methods] or
    [Virtual methods], and that none of the three block patterns matches,
    only sets [reading_methods]; class, method id and last line stay. *)
Theorem methods_header_keeps_tracking sm st c rest :
  iodi_metadata sm <> None -> CharClass.upper c = true ->
  contains (txt "Direct methods") (txt "  " ++ c :: rest) = true
  \/ contains (txt "Virtual methods") (txt "  " ++ c :: rest) = true ->
  re_search METHOD_CLS_HDR_REGEX (txt "  " ++ c :: rest) = None ->
  re_search METHOD_REGEX (txt "  " ++ c :: rest) = None ->
  re_search LINE_REGEX (txt "  " ++ c :: rest) = None ->
  fst (symbolicate sm st (txt "  " ++ c :: rest)) = set_reading_methods st true.
Proof.
  intros Hi Hc Hm H1 H2 H3. unfold symbolicate.
  destruct (iodi_metadata sm) as [iodi|]; [|congruence].
  assert (Hb : iodi_block sm iodi st (txt "  " ++ c :: rest) = Fall st).
  { unfold iodi_block. rewrite H1, H2, H3.
    destruct (current_class st); [|reflexivity].
    now destruct (current_method_id st). }
  rewrite Hb. cbn [fst]. unfold section_checks.
  pose proof (chunk_hdr_match c rest Hc) as Hh.
  destruct (re_match CLS_CHUNK_HDR_REGEX _); [|congruence].
  assert (Ho : contains (txt "Direct methods") (txt "  " ++ c :: rest)
               || contains (txt "Virtual methods") (txt "  " ++ c :: rest)
               = true)
    by (destruct Hm as [-> | ->]; [reflexivity|apply orb_true_r]).
  now rewrite Ho.
Qed.

(* ------------------------------------------------------------------ *)
(** ** These theorems at concrete inputs *)

Lemma tracking_invariant_witness :
  let sm := session_maps both_methods in
  let st := fst (symbolicate sm (fst (symbolicate sm init hdr0)) name_a) in
  reachable sm st /\
  current_method_id st = Some 1 /\ current_class st <> None.
Proof.
  cbv zeta.
  assert (Hr : reachable (session_maps both_methods)
                 (fst (symbolicate (session_maps both_methods)
                         (fst (symbolicate (session_maps both_methods) init
                                 hdr0)) name_a)))
    by (apply reach_step, reach_step, reach_init).
  split; [exact Hr|]. split; [reflexivity|].
  apply (tracking_invariant _ _ Hr). discriminate.
Defined.

Lemma reading_methods_never_read_witness :
  let sm := session_maps both_methods in
  let st1 := mkState true (Some (txt "com/foo/Bar")) (Some 1) None in
  let st2 := mkState false (Some (txt "com/foo/Bar")) (Some 1) None in
  same_tracking st1 st2 /\
  snd (run sm st1 [instr "0000" "0"; instr "0001" "1"])
  = snd (run sm st2 [instr "0000" "0"; instr "0001" "1"]).
Proof.
  cbv zeta. split; [repeat split|].
  apply reading_methods_never_read. repeat split.
Defined.

Lemma unmatched_line_keeps_state_witness :
  let sm := session_maps both_methods in
  let st := mkState true (Some (txt "com/foo/Bar")) (Some 1) (Some 7) in
  let line := txt "      registers     : 1" in
  (re_search METHOD_CLS_HDR_REGEX line = None /\
   re_search METHOD_REGEX line = None /\ re_search LINE_REGEX line = None /\
   re_match CLS_CHUNK_HDR_REGEX line = None /\
   re_match CLS_HDR_REGEX line = None) /\
  fst (symbolicate sm st line) = st.
Proof.
  cbv zeta. split; [repeat split; reflexivity|].
  apply unmatched_line_keeps_state; reflexivity.
Defined.

Lemma empty_table_plain_witness :
  let sm := session_maps ∅ in
  (iodi_metadata sm = Some {| collision_free := ∅ |}) /\
  snd (run sm init [hdr0; name_a; instr "0000" "0"])
  = [Return (Some hdr0); Return (Some name_a);
     Return (Some (txt "        0x0000 line=Bar.java:0"))].
Proof.
  cbv zeta. split; [reflexivity|].
  transitivity (until_raise
                  (map (fun l => rewrite (session_maps ∅) l)
                     [hdr0; name_a; instr "0000" "0"])).
  - apply (empty_table_plain _ {| collision_free := ∅ |}); reflexivity.
  - vm_compute. reflexivity.
Defined.

Lemma class_sub_identity_without_keys_witness :
  (forall cls, class_name CharClass.ident cls ->
     class_map (session_maps ∅) !! replace "/" "." cls = None) /\
  re_sub CLASS_REGEX (class_replacer (session_maps ∅)) hdr0 = Some hdr0.
Proof.
  split; [intros cls _; apply lookup_empty|].
  apply (class_sub_identity_without_keys (session_maps ∅) init hdr0).
  intros cls _. apply lookup_empty.
Defined.

Lemma get_class_map_skips_witness :
  get_class_map mapping_file
  = get_class_map [txt "a.b.C -> com.Foo:" ++ newline;
                   txt "d.E -> com.Bar:" ++ newline].
Proof.
  apply (get_class_map_skips [txt "a.b.C -> com.Foo:" ++ newline]
           (txt "    int x -> a" ++ newline)
           [txt "d.E -> com.Bar:" ++ newline]).
  left. reflexivity.
Defined.

Lemma get_class_map_lookup_witness :
  exists mapping,
    get_class_map mapping_file = Some mapping /\
    mapping !! txt "com.Foo" = Some (txt "a.b.C").
Proof.
  apply (get_class_map_lookup [] (txt "a.b.C") (txt "com.Foo")
           [txt "    int x -> a" ++ newline; txt "d.E -> com.Bar:" ++ newline]).
  - discriminate.
  - reflexivity.
  - reflexivity.
  - repeat constructor; vm_compute; discriminate.
Defined.

Lemma lines_symbolicate_entry_witness :
  length (txt ".class" ++ newline) = 7%nat /\
  LinesSymbolicator.symbolicate foo_maps (txt "com/Foo" ++ txt ".class" ++ newline)
  = txt "a.b.C" ++ newline.
Proof.
  split; [reflexivity|].
  rewrite (lines_symbolicate_entry foo_maps (txt "com/Foo")
             (txt ".class" ++ newline) eq_refl).
  reflexivity.
Defined.

Lemma lines_symbolicate_from_file_witness :
  get_class_map [txt "a.b.C -> com.Foo:" ++ newline;
                 txt "    int x -> a" ++ newline]
  = Some (class_map foo_maps) /\
  LinesSymbolicator.symbolicate foo_maps
    (txt "com/Foo" ++ txt ".class" ++ newline)
  = txt "a.b.C" ++ newline.
Proof.
  split; [vm_compute; reflexivity|].
  apply (lines_symbolicate_from_file foo_maps [] (txt "a.b.C") (txt "com.Foo")
           [txt "    int x -> a" ++ newline] (txt "com/Foo")).
  - discriminate.
  - reflexivity.
  - reflexivity.
  - repeat constructor; vm_compute; discriminate.
  - vm_compute. reflexivity.
  - reflexivity.
Defined.

Lemma main_dexdump_copies_plain_input_witness :
  let input := [txt "  Static fields     -" ++ newline;
                txt "      registers     : 1" ++ newline] in
  Forall (fun l => re_search CLASS_REGEX l = None
                   /\ re_search LINE_REGEX l = None) input /\
  main_dexdump (session_maps both_methods) input = Done (concat input).
Proof.
  cbv zeta.
  assert (H : Forall (fun l => re_search CLASS_REGEX l = None
                               /\ re_search LINE_REGEX l = None)
                [txt "  Static fields     -" ++ newline;
                 txt "      registers     : 1" ++ newline])
    by (repeat constructor).
  split; [exact H|].
  exact (main_dexdump_copies_plain_input (session_maps both_methods) _ H).
Defined.

Lemma main_dexdump_without_iodi_witness :
  let long := txt "0x0010 line=" ++ repeat "0"%char 4301 in
  iodi_metadata foo_maps = None /\
  main_dexdump foo_maps [txt "0x0010 line=5"; txt "Lcom/Foo;"]
  = Done (txt "0x0010 line=Foo.java:10La/b/C;") /\
  main_dexdump foo_maps [txt "0x0010 line=5"; long; txt "Lcom/Foo;"]
  = Failed.
Proof.
  cbv zeta. split; [reflexivity|]. split.
  - destruct (main_dexdump_without_iodi foo_maps
                [txt "0x0010 line=5"; txt "Lcom/Foo;"] eq_refl
                ltac:(discriminate)) as [H _].
    destruct H as (outs & Hf & ->).
    + repeat constructor; vm_compute; discriminate.
    + inversion Hf as [|? o1 ? outs1 H1 Hf1]; subst.
      inversion Hf1 as [|? o2 ? outs2 H2 Hf2]; subst.
      inversion Hf2; subst.
      vm_compute in H1. injection H1 as <-.
      vm_compute in H2. injection H2 as <-. reflexivity.
  - apply (main_dexdump_without_iodi foo_maps
             [txt "0x0010 line=5"; txt "0x0010 line=" ++ repeat "0"%char 4301;
              txt "Lcom/Foo;"] eq_refl ltac:(discriminate)).
    apply Exists_cons_tl, Exists_cons_hd. vm_compute. reflexivity.
Defined.

Lemma SymbolMaps_init_builds_witness :
  SymbolMaps_init (fun _ => true) files_without_debug_line_map = Exit 1 /\
  exists sm,
    SymbolMaps_init (fun _ => true) files_without_iodi = Done sm /\
    iodi_metadata sm = None /\
    class_map sm !! txt "com.Foo" = Some (txt "a.b.C").
Proof.
  split.
  - apply (proj1 (SymbolMaps_init_builds (fun _ => true)
                    files_without_debug_line_map)).
    repeat split; discriminate.
  - destruct (SymbolMaps_init (fun _ => true) files_without_iodi)
      as [code| |sm] eqn:E; try (vm_compute in E; discriminate).
    exists sm. split; [reflexivity|].
    destruct (proj2 (SymbolMaps_init_builds (fun _ => true)
                       files_without_iodi) sm E)
      as ((lines & Hl & Hc) & _ & _ & Hi & _).
    split.
    + simpl in Hi. destruct (iodi_metadata sm); [discriminate|reflexivity].
    + injection Hl as <-.
      transitivity (match get_class_map mapping_file with
                    | Some m => m !! txt "com.Foo"
                    | None => None
                    end); [now rewrite Hc|vm_compute; reflexivity].
Defined.

Lemma descriptor_from_file_witness :
  get_class_map [txt "a.b.C -> com.Foo:" ++ newline;
                 txt "    int x -> a" ++ newline]
  = Some (class_map foo_maps) /\
  class_name CharClass.ident (txt "com/Foo") /\
  snd (symbolicate foo_maps init (txt "L" ++ txt "com/Foo" ++ txt ";"))
  = Return (Some (txt "La/b/C;")).
Proof.
  assert (Hc : class_name CharClass.ident (txt "com/Foo")).
  { exists "c"%char, (txt "om"), (txt "Foo"). repeat split; try reflexivity.
    discriminate. }
  split; [vm_compute; reflexivity|]. split; [exact Hc|].
  apply (descriptor_from_file foo_maps init [] (txt "a.b.C") (txt "com.Foo")
           [txt "    int x -> a" ++ newline] (txt "com/Foo")).
  - discriminate.
  - reflexivity.
  - reflexivity.
  - repeat constructor; vm_compute; discriminate.
  - vm_compute. reflexivity.
  - exact Hc.
  - reflexivity.
  - reflexivity.
Defined.

Lemma unmapped_annotation_falls_through_witness :
  let sm := session_maps both_methods in
  let st := mkState false (Some (txt "com/foo/Bar")) (Some 1) (Some 7) in
  annotation (instr "0003" "3") = Some (txt "0x0003 line=", txt "3") /\
  session_lines 1 (txt "3") = None /\
  symbolicate sm st (instr "0003" "3")
  = (st, Return (Some (txt "        0x0003 line=Bar.java:3"))).
Proof.
  cbv zeta. split; [reflexivity|]. split; [reflexivity|].
  rewrite (unmapped_annotation_falls_through (session_maps both_methods)
             {| collision_free := both_methods |}
             {| find_line_number := session_lines |}
             (mkState false (Some (txt "com/foo/Bar")) (Some 1) (Some 7))
             (txt "com/foo/Bar") 1 (instr "0003" "3")
             (txt "0x0003 line=") (txt "3")
             eq_refl eq_refl eq_refl eq_refl eq_refl (or_introl eq_refl)).
  vm_compute. reflexivity.
Defined.

Lemma methods_header_keeps_tracking_witness :
  let sm := session_maps both_methods in
  let st := mkState false (Some (txt "com/foo/Bar")) (Some 1) (Some 7) in
  contains (txt "Virtual methods") (txt "  " ++ "V"%char :: txt "irtual methods   -")
  = true /\
  fst (symbolicate sm st (txt "  " ++ "V"%char :: txt "irtual methods   -"))
  = mkState true (Some (txt "com/foo/Bar")) (Some 1) (Some 7).
Proof.
  cbv zeta. split; [reflexivity|].
  apply (methods_header_keeps_tracking (session_maps both_methods)
           (mkState false (Some (txt "com/foo/Bar")) (Some 1) (Some 7))
           "V"%char (txt "irtual methods   -")).
  - discriminate.
  - reflexivity.
  - right. reflexivity.
  - reflexivity.
  - reflexivity.
  - reflexivity.
Defined.
